(** * playscrape: a shallow embedding of the Play-store review scraper

    The development follows the two scripts of the repository:
    - [Playscrape] embeds [src/playscrape.py] (the packaged command), and
    - [Legacy] embeds [src/playscrape/playscrape.py] (the earlier script).

    Python values are modelled as follows.  A [str] is a [string] whose
    characters are code points below 256; a list is a [list]; the
    module-level dict [CACHE] is a [gmap string bool]; a call that can raise
    returns a [result]; the browser is a state that is threaded through the
    calls, together with the trace of the effects performed so far. *)

From Stdlib Require Import ZArith Ascii String List Bool Lia.
From stdpp Require Import gmap strings list.
Import ListNotations.

Local Open Scope string_scope.
Local Open Scope Z_scope.
Set Warnings "-register-all".

(** ** Python results *)

Inductive exn : Type :=
| UnboundLocalError
| IndexError
| KeyError
| AttributeError
| TypeError.

Inductive result (A : Type) : Type :=
| Ok (a : A)
| Raise (e : exn).
Arguments Ok {A} a.
Arguments Raise {A} e.

#[global] Instance result_ret : MRet result := fun A a => Ok a.

#[global] Instance result_bind : MBind result := fun A B k r =>
  match r with
  | Ok a => k a
  | Raise e => Raise e
  end.

(** A local variable that a [for ... : break] loop may leave unassigned. *)
Inductive local (A : Type) : Type :=
| Unbound
| Bound (a : A).
Arguments Unbound {A}.
Arguments Bound {A} a.

Definition read_local {A} (v : local A) : result A :=
  match v with
  | Bound a => Ok a
  | Unbound => Raise UnboundLocalError
  end.

(** ** [datetime.strptime(text, "%B %d, %Y")]

    The directive table of [_strptime.TimeRE] turns the format into the
    regular expression
    [(?P<B>september|february|...)\s+]
    [(?P<d>3[0-1]|[1-2]\d|0[1-9]|[1-9]| [1-9]),\s+(?P<Y>\d\d\d\d)],
    compiled with [IGNORECASE]; the match must consume the whole text, and the
    three fields must then form a date of the proleptic Gregorian calendar
    with a year of at least [MINYEAR = 1].  The matcher below follows the
    backtracking order of [re]: alternatives left to right, [\s+] greedy. *)
Module Strptime.

Definition code (c : ascii) : Z := Z.of_N (N_of_ascii c).

(** [\s] on code points below 256. *)
Definition is_space (c : ascii) : bool :=
  let n := code c in
  ((9 <=? n) && (n <=? 13)) || ((28 <=? n) && (n <=? 32))
  || (n =? 133) || (n =? 160).

(** [\d] on code points below 256. *)
Definition is_digit (c : ascii) : bool :=
  let n := code c in (48 <=? n) && (n <=? 57).

Definition digit (c : ascii) : Z := code c - 48.

Definition lower (c : ascii) : ascii :=
  let n := code c in
  if (65 <=? n) && (n <=? 90) then ascii_of_N (Z.to_N (n + 32)) else c.

(** The month names of the C locale, longest first as [__seqToRE] sorts
    them (the sort is stable), each with its month number. *)
Definition month_names : list (string * Z) :=
  [ ("september", 9); ("february", 2); ("november", 11); ("december", 12);
    ("january", 1); ("october", 10); ("august", 8); ("march", 3);
    ("april", 4); ("june", 6); ("july", 7); ("may", 5) ].

Section Matcher.
Context {R : Type}.

(** [p] literally, ignoring case; [p] is already in lower case. *)
Fixpoint literal_ci (p s : list ascii) (k : list ascii -> option R)
  : option R :=
  match p, s with
  | [], _ => k s
  | a :: p', c :: s' =>
      if Ascii.eqb a (lower c) then literal_ci p' s' k else None
  | _ :: _, [] => None
  end.

Fixpoint alternatives {A} (f : A -> option R) (alts : list A) : option R :=
  match alts with
  | [] => None
  | a :: rest =>
      match f a with
      | Some r => Some r
      | None => alternatives f rest
      end
  end.

(** [\s*], greedy. *)
Fixpoint spaces_star (s : list ascii) (k : list ascii -> option R)
  : option R :=
  match s with
  | c :: s' =>
      if is_space c then
        match spaces_star s' k with
        | Some r => Some r
        | None => k s
        end
      else k s
  | [] => k s
  end.

(** [\s+], greedy. *)
Definition spaces_plus (s : list ascii) (k : list ascii -> option R)
  : option R :=
  match s with
  | c :: s' => if is_space c then spaces_star s' k else None
  | [] => None
  end.

(** [(?P<B>...)]: the continuation receives the month number. *)
Definition month (s : list ascii) (k : Z -> list ascii -> option R)
  : option R :=
  alternatives
    (fun nm => literal_ci (list_ascii_of_string (fst nm)) s (k (snd nm)))
    month_names.

(** [(?P<d>3[0-1]|[1-2]\d|0[1-9]|[1-9]| [1-9])]: the continuation
    receives [int] of the group. *)
Definition day (s : list ascii) (k : Z -> list ascii -> option R)
  : option R :=
  let in_range c lo hi := (lo <=? digit c) && (digit c <=? hi)
                          && is_digit c in
  let alt1 :=
    match s with
    | a :: b :: s' =>
        if Ascii.eqb a "3" && in_range b 0 1
        then k (30 + digit b) s' else None
    | _ => None
    end in
  let alt2 :=
    match s with
    | a :: b :: s' =>
        if in_range a 1 2 && is_digit b
        then k (10 * digit a + digit b) s' else None
    | _ => None
    end in
  let alt3 :=
    match s with
    | a :: b :: s' =>
        if Ascii.eqb a "0" && in_range b 1 9
        then k (digit b) s' else None
    | _ => None
    end in
  let alt4 :=
    match s with
    | a :: s' => if in_range a 1 9 then k (digit a) s' else None
    | _ => None
    end in
  let alt5 :=
    match s with
    | a :: b :: s' =>
        if Ascii.eqb a " " && in_range b 1 9
        then k (digit b) s' else None
    | _ => None
    end in
  alternatives (fun alt : option R => alt) [alt1; alt2; alt3; alt4; alt5].

(** [(?P<Y>\d\d\d\d)]. *)
Definition year (s : list ascii) (k : Z -> list ascii -> option R)
  : option R :=
  match s with
  | a :: b :: c :: d :: s' =>
      if is_digit a && is_digit b && is_digit c && is_digit d
      then k (1000 * digit a + 100 * digit b + 10 * digit c + digit d) s'
      else None
  | _ => None
  end.

Definition comma (s : list ascii) (k : list ascii -> option R)
  : option R :=
  match s with
  | c :: s' => if Ascii.eqb c "," then k s' else None
  | [] => None
  end.
End Matcher.

(** [format_regex.match(data_string)]: the fields [(Y, B, d)] and the
    unconverted remainder. *)
Definition regex_match (s : list ascii) : option (Z * Z * Z * list ascii) :=
  month s (fun m s1 =>
  spaces_plus s1 (fun s2 =>
  day s2 (fun d s3 =>
  comma s3 (fun s4 =>
  spaces_plus s4 (fun s5 =>
  year s5 (fun y rest => Some (y, m, d, rest))))))).

Definition is_leap (y : Z) : bool :=
  (y mod 4 =? 0) && (negb (y mod 100 =? 0) || (y mod 400 =? 0)).

Definition days_in_month (y m : Z) : Z :=
  if m =? 2 then (if is_leap y then 29 else 28)
  else if (m =? 4) || (m =? 6) || (m =? 9) || (m =? 11) then 30
  else 31.

(** [datetime_date(year, month, day)] accepts the triple. *)
Definition valid_date (y m d : Z) : bool :=
  (1 <=? y) && (y <=? 9999) && (1 <=? m) && (m <=? 12)
  && (1 <=? d) && (d <=? days_in_month y m).

(** [Some (year, month, day)] when [strptime] returns, [None] when it
    raises [ValueError]. *)
Definition strptime (text : string) : option (Z * Z * Z) :=
  match regex_match (list_ascii_of_string text) with
  | Some (y, m, d, []) =>
      if valid_date y m d then Some (y, m, d) else None
  | Some (_, _, _, _ :: _) => None
  | None => None
  end.

End Strptime.

(** [is_date], the same function in both scripts. *)
Definition is_date (text : string) : bool :=
  match Strptime.strptime text with
  | Some _ => true
  | None => false
  end.

(** The cases of [tests/test_playscrape.py::test_is_date]. *)
Example test_is_date :
  is_date "August 23, 2021" = true /\
  is_date "January 21, 1341" = true /\
  is_date "June 1, 1997" = true /\
  is_date "foo bar, baz" = false /\
  is_date "Nov 23, 1234" = false /\
  is_date "January 21, abcd" = false.
Proof. repeat split; vm_compute; reflexivity. Qed.

(** ** Python helpers *)

(** [bool(v)] for a value that is [None] or a [str]. *)
Definition truthy (v : option string) : bool :=
  match v with
  | Some s => negb (String.eqb s "")
  | None => false
  end.

(** [list(filter(bool, vs))] for values that are [None] or a [str]. *)
Fixpoint filter_bool (vs : list (option string)) : list string :=
  match vs with
  | [] => []
  | Some s :: rest =>
      if truthy (Some s) then s :: filter_bool rest else filter_bool rest
  | None :: rest => filter_bool rest
  end.

(** [s.endswith(suffix)]. *)
Definition endswith (s suffix : string) : bool :=
  (String.length suffix <=? String.length s)%nat
  && String.eqb
       (substring (String.length s - String.length suffix)
                  (String.length suffix) s)
       suffix.

(** [l[-1]] of a list. *)
Definition last_item {A} (l : list A) : result A :=
  match last l with
  | Some a => Ok a
  | None => Raise IndexError
  end.

(** [l[0:-2]]. *)
Definition drop_last_two {A} (l : list A) : list A :=
  take (length l - 2) l.

(** [l.pop(0)]: the popped value and the list that is left. *)
Definition pop0 {A} (l : list A) : result (A * list A) :=
  match l with
  | a :: rest => Ok (a, rest)
  | [] => Raise IndexError
  end.

Example endswith_sample :
  endswith "Rated 4 stars out of five stars" "stars out of five stars" = true
  /\ endswith "five stars" "stars out of five stars" = false
  /\ endswith "Rated 4 stars out of five stars." "stars out of five stars"
     = false.
Proof. repeat split; reflexivity. Qed.

(** ** The BeautifulSoup tree

    A parsed document is a tree of tags, strings and comments.  Of the
    attributes of a tag only [aria-label] (a string) and [class] (a list of
    strings, the attribute being multi-valued) are read by the scripts. *)
Module Bs4.

Inductive node : Type :=
| NavigableString (s : string)
| Comment (s : string)
| Tag (name : string) (aria_label : option string)
      (class_ : option (list string)) (contents : list node).

Definition is_tag (n : node) : bool :=
  match n with
  | Tag _ _ _ _ => true
  | _ => false
  end.

Definition name (n : node) : string :=
  match n with
  | Tag nm _ _ _ => nm
  | _ => ""
  end.

(** [element.get("aria-label")]. *)
Definition get_aria_label (n : node) : option string :=
  match n with
  | Tag _ a _ _ => a
  | _ => None
  end.

(** [element.findChildren()]: the descendant tags, in document order. *)
Fixpoint findChildren (n : node) : list node :=
  match n with
  | Tag _ _ _ cs =>
      flat_map (fun c => if is_tag c then c :: findChildren c else []) cs
  | _ => []
  end.

(** [element.text]: the strings below the element, concatenated; comments
    do not count. *)
Fixpoint text (n : node) : string :=
  match n with
  | NavigableString s => s
  | Comment _ => ""
  | Tag _ _ _ cs => String.concat "" (map text cs)
  end.

(** A tag found by a search, with its ancestors, nearest first.  The last
    ancestor is the [BeautifulSoup] object itself, whose parent is [None]. *)
Definition element : Type := node * list node.

Fixpoint descendants (anc : list node) (n : node) : list element :=
  match n with
  | Tag _ _ _ cs =>
      flat_map (fun c => if is_tag c
                         then (c, n :: anc) :: descendants (n :: anc) c
                         else []) cs
  | _ => []
  end.

(** The [BeautifulSoup] object over the parsed top-level nodes: a tag
    named [[document]] without attributes. *)
Definition BeautifulSoup (parsed : list node) : node :=
  Tag "[document]" None None parsed.

(** [soup.find_all(tag_name)]. *)
Definition find_all (soup : node) (tag_name : string) : list element :=
  filter (fun e : element => name (fst e) = tag_name) (descendants [] soup).

(** [x.parent], where [x] is an element or [None]. *)
Definition parent (x : option element) : result (option element) :=
  match x with
  | None => Raise AttributeError
  | Some (_, []) => Ok None
  | Some (_, p :: anc) => Ok (Some (p, anc))
  end.

(** [element.get("class")]. *)
Definition get_class (n : node) : option (list string) :=
  match n with
  | Tag _ _ cls _ => cls
  | _ => None
  end.

(** What the scripts take from the library as given: the parser
    ([html.parser] behind [BeautifulSoup(markup)]), from markup to the
    top-level nodes, and the attribute filter of
    [find_all(name, {"class": signature})], which says whether a tag whose
    [class] attribute has the given value is kept for a signature. *)
Record library : Type :=
  { html_parser : string -> list node;
    class_matches : list string -> option (list string) -> bool }.

(** [soup.find_all(tag_name, {"class": signature})]. *)
Definition find_all_class (lib : library) (soup : node)
    (tag_name : string) (signature : list string) : list element :=
  filter (fun e : element =>
            name (fst e) = tag_name
            /\ class_matches lib signature (get_class (fst e)) = true)
         (descendants [] soup).

(** [x["class"]], where [x] is an element or [None]. *)
Definition getitem_class (x : option element) : result (list string) :=
  match x with
  | None => Raise TypeError
  | Some (Tag _ _ (Some cls) _, _) => Ok cls
  | Some _ => Raise KeyError
  end.

End Bs4.
Import Bs4.

(** ** Review records: the [dict] built by both scripts *)
Record review : Type := mkReview
  { reviewer : string;
    date : string;
    rating : option string;   (* a one-character [str], or [None] *)
    review_text : string      (* key [review] *)
  }.

(** Two records with the same reviewer, date and text; the ratings may
    differ. *)
Definition same_text (r r' : review) : Prop :=
  reviewer r = reviewer r' /\ date r = date r'
  /\ review_text r = review_text r'.

(** Two outcomes for one candidate: both rejections, or records with the
    same text fields. *)
Definition same_outcome (o o' : option review) : Prop :=
  match o, o' with
  | None, None => True
  | Some r, Some r' => same_text r r'
  | _, _ => False
  end.

(** ** The browser

    What the scripts take from Selenium as given.  A [driver] is the state of
    one browser session as the script can observe and change it; reading
    [page_source] or [title] does not change it; clicking, sending a key and
    letting time pass do. *)
Module Selenium.

Class api : Type :=
  { driver : Type;
    web_element : Type;
    (** [str(element)], the key of the click cache. *)
    str : web_element -> string;
    (** [webdriver.Chrome(driver_location)] followed by [driver.get(url)]. *)
    chrome_get : string -> string -> driver;
    (** [driver.find_elements(By.XPATH, xpath)]. *)
    find_elements : driver -> string -> list web_element;
    (** [element.click()]: [false] when it raises
        [ElementNotInteractableException] or
        [ElementClickInterceptedException]. *)
    click : web_element -> driver -> bool * driver;
    (** [html.send_keys(Keys.END)]. *)
    send_keys_END : driver -> driver;
    (** What the page does during [time.sleep(seconds)]. *)
    wait : Z -> driver -> driver;
    page_source : driver -> string;
    title : driver -> string }.

End Selenium.

(** What a run does to the outside, in order. *)
Inductive message : Type :=
| OnReviewPage (ipage : Z)
| IncreaseMaxScrolls
| Processing (app_id : string)
| Found (reviews : nat).

Inductive event : Type :=
| Click (key : string) (ok : bool)
| Sleep (seconds : Z)
| SendKeysEnd
| Secho (m : message)
| OpenBrowser (url : string)
| CloseBrowser
| WriteFile (path : string).

(** The number of calls of [element.click()] in a trace. *)
Definition is_click (ev : event) : bool :=
  match ev with
  | Click _ _ => true
  | _ => false
  end.

Definition clicks (t : list event) : nat := length (List.filter is_click t).

(** The number of times the END key was sent: the rounds performed. *)
Definition is_send_keys (ev : event) : bool :=
  match ev with
  | SendKeysEnd => true
  | _ => false
  end.

Definition rounds (t : list event) : nat :=
  length (List.filter is_send_keys t).

(** The warning of lines 103-110 was printed. *)
Definition warned (t : list event) : Prop := Secho IncreaseMaxScrolls ∈ t.

(** The events of clicking: a click, and the pause after a click that
    worked. *)
Definition clicking (ev : event) : Prop :=
  match ev with
  | Click _ _ | Sleep _ => True
  | _ => False
  end.

(** * [src/playscrape.py] *)
Module Playscrape.

Definition get_rating (element : node) : option string :=
  match get_aria_label element with
  | Some rating =>
      if endswith rating "stars out of five stars"
         && (String.length rating =? 31)%nat
      then Some (substring 6 1 rating)
      else None
  | None => None
  end.

Definition get_element_text (element : node) : option string :=
  if (0 <? length (findChildren element))%nat then None
  else Some (text element).

(** The variable [_rating] after the loop of lines 136-137. *)
Definition first_rating (container_elements : list node) : local string :=
  match filter_bool (map get_rating container_elements) with
  | r :: _ => Bound r
  | [] => Unbound
  end.

(** The list [review_parts] of line 139. *)
Definition collect_parts (container_elements : list node) : list string :=
  filter_bool (map get_element_text container_elements).

(** The list [review_parts] after lines 144-145. *)
Definition truncate_reply (review_parts : list string)
  : result (list string) :=
  l ← last_item review_parts;
  mret (if is_date l then drop_last_two review_parts else review_parts).

(** [Ok None] is the Python value [None]: the candidate is rejected. *)
Definition extract_review (review_container : node)
  : result (option review) :=
  let container_elements := findChildren review_container in
  let _rating := first_rating container_elements in
  let review_parts := collect_parts container_elements in
  if (length review_parts =? 0)%nat then Ok None else
  review_parts ← truncate_reply review_parts;
  if (length review_parts =? 0)%nat then Ok None else
  '(reviewer, review_parts) ← pop0 review_parts;
  '(review_date, review_parts) ← pop0 review_parts;
  if negb (is_date review_date) then Ok None else
  review_text ← match review_parts with
                | [] => Ok ""
                | _ :: _ => last_item review_parts
                end;
  _rating ← read_local _rating;
  Ok (Some (mkReview reviewer review_date (Some _rating) review_text)).

Section WithBs4.
Context (bs4 : Bs4.library).

(** [bool(d)] of a value that is [None] or a non-empty [dict]. *)
Definition accepted (rs : list (option review)) : list review :=
  omap id rs.

Definition parse_reviews (html_source : string) : result (list review) :=
  let soup := BeautifulSoup (html_parser bs4 html_source) in
  let _element :=
    match filter (fun e : element => truthy (get_rating (fst e)) = true)
                 (find_all soup "div") with
    | e :: _ => Bound e
    | [] => Unbound
    end in
  _element ← read_local _element;
  p ← parent (Some _element);
  p ← parent p;
  p ← parent p;
  p ← parent p;
  p ← parent p;
  p ← parent p;
  parent_class ← getitem_class p;
  let review_containers := find_all_class bs4 soup "div" parent_class in
  rs ← mapM (fun e : element => extract_review (fst e)) review_containers;
  mret (accepted rs).
End WithBs4.

Definition SLEEP_TIME : Z := 2.
Definition TENACITY : nat := 10.

Definition PLAY_URL (app_id : string) : string :=
  "https://play.google.com/store/apps/details?id=" +:+ app_id
  +:+ "&showAllReviews=true".

Definition HTML_PATH (file : string) : string := "html_cache/" +:+ file.
Definition DATA_PATH (file : string) : string := "data/" +:+ file.

(** [range(n)]. *)
Definition range (n : Z) : list Z := map Z.of_nat (seq 0 (Z.to_nat n)).

Section WithSelenium.
Import Selenium.
Context `{!Selenium.api}.

(** The state of the process: the browser session that is open, the
    module-level dictionary [CACHE] and the effects so far. *)
Record world : Type := mkWorld
  { session : driver;
    CACHE : gmap string bool;
    trace : list event }.

Definition emit (ev : event) (w : world) : world :=
  mkWorld (session w) (CACHE w) (trace w ++ [ev]).

Definition with_session (d : driver) (w : world) : world :=
  mkWorld d (CACHE w) (trace w).

Definition with_cache (c : gmap string bool) (w : world) : world :=
  mkWorld (session w) c (trace w).

(** [time.sleep(seconds)]. *)
Definition sleep (seconds : Z) (w : world) : world :=
  emit (Sleep seconds) (with_session (wait seconds (session w)) w).

(** The decorator [cachetools.cached(cache=CACHE, key=key)]: a hit
    returns the stored value without calling [func]; a miss calls it and
    stores what it returns. *)
Definition cached {A} (key : A -> string)
    (func : A -> world -> bool * world) (a : A) (w : world)
  : bool * world :=
  let k := key a in
  match CACHE w !! k with
  | Some v => (v, w)
  | None =>
      let '(v, w) := func a w in
      (v, with_cache (<[k := v]> (CACHE w)) w)
  end.

(** The function under the decorator, lines 48-55. *)
Definition _click_element_wrapped (element : web_element) (w : world)
  : bool * world :=
  let '(ok, d) := click element (session w) in
  let w := emit (Click (str element) ok) (with_session d w) in
  if ok then (true, sleep SLEEP_TIME w) else (false, w).

Definition _click_element : web_element -> world -> bool * world :=
  cached str _click_element_wrapped.

(** The body of the loop of [click_elements], lines 61-65, with the
    value of [success]. *)
Definition attempt (element : web_element) (w : world) : bool * world :=
  let '(success, w) := _click_element element w in
  if negb success
  then (success, with_cache (delete (str element) (CACHE w)) w)
  else (success, w).

Definition xpath (element_type text : string) : string :=
  let quote := String (ascii_of_nat 34) EmptyString in
  "//" +:+ element_type +:+ "[text()=" +:+ quote +:+ text +:+ quote
  +:+ "]".

Definition click_elements (element_type text : string) (w : world)
  : world :=
  fold_left (fun w element => snd (attempt element w))
            (find_elements (session w) (xpath element_type text)) w.

(** Steps 1 to 3 of one iteration of [expand_reviews], lines 90-98. *)
Definition expand_page (w : world) : world :=
  let w :=
    Nat.iter TENACITY
      (fun w => click_elements "span" "Show More"
                  (click_elements "button" "Full Review" w)) w in
  let w := emit SendKeysEnd (with_session (send_keys_END (session w)) w) in
  sleep SLEEP_TIME w.

Definition html_length (w : world) : nat :=
  String.length (page_source (session w)).

(** The [for] loop of [expand_reviews] over the remaining values of
    [ipage]; the boolean is [found_the_end]. *)
Fixpoint expand_loop (pages : list Z) (w : world) : bool * world :=
  match pages with
  | [] => (false, w)
  | ipage :: pages =>
      let w := emit (Secho (OnReviewPage ipage)) w in
      let before := html_length w in
      let w := expand_page w in
      if (html_length w =? before)%nat then (true, w)
      else expand_loop pages w
  end.

(** Looking up the [html] element (line 80) changes nothing and is left
    out. *)
Definition expand_reviews (max_scrolls : Z) (w : world) : world :=
  let '(found_the_end, w) := expand_loop (range max_scrolls) w in
  if negb found_the_end then emit (Secho IncreaseMaxScrolls) w else w.

(** Entering [with open_browser(driver_location, url) as driver]. *)
Definition open_browser (driver_location url : string) (w : world)
  : world :=
  let w := emit (OpenBrowser url)
                (with_session (chrome_get driver_location url) w) in
  sleep (3 * SLEEP_TIME) w.

(** Leaving it: [driver.close()]. *)
Definition close_browser (w : world) : world := emit CloseBrowser w.

Section Crawl.
Context (bs4 : Bs4.library).

Definition expand_and_parse_reviews
    (driver_location app_id : string) (max_scrolls : Z) (w : world)
  : result (list review) * world :=
  let source_filename := HTML_PATH (app_id +:+ "-source.html") in
  let title_filename := HTML_PATH (app_id +:+ "-title") in
  let url := PLAY_URL app_id in
  let w := open_browser driver_location url w in
  let w := expand_reviews max_scrolls w in
  let html_source := page_source (session w) in
  let w := close_browser w in
  let w := emit (WriteFile source_filename) w in
  let w := emit (WriteFile title_filename) w in
  (parse_reviews bs4 html_source, w).

(** The loop of the command [playscrape], lines 251-267, over the
    identifiers that passed validation.  An exception of the parser
    ends the command. *)
Fixpoint playscrape (driver_location : string) (app_ids : list string)
    (max_scrolls : Z) (w : world) : result unit * world :=
  match app_ids with
  | [] => (Ok tt, w)
  | app_id :: app_ids =>
      let w := emit (Secho (Processing app_id)) w in
      let '(reviews, w) :=
        expand_and_parse_reviews driver_location app_id max_scrolls w in
      match reviews with
      | Raise e => (Raise e, w)
      | Ok reviews =>
          let w := emit (Secho (Found (length reviews))) w in
          let w := emit (WriteFile (DATA_PATH (app_id +:+ ".json"))) w in
          playscrape driver_location app_ids max_scrolls w
      end
  end.
End Crawl.


(** One iteration of the loop of [expand_reviews] up to the test. *)
Definition round (ipage : Z) (w : world) : world :=
  expand_page (emit (Secho (OnReviewPage ipage)) w).

(** The state after the first [k] iterations, when none of them
    breaks. *)
Fixpoint after_rounds (k : nat) (w : world) : world :=
  match k with
  | O => w
  | S k' => round (Z.of_nat k') (after_rounds k' w)
  end.

(** Iteration [j], counted from 0, changed the length of the page. *)
Definition changed (j : nat) (w : world) : Prop :=
  html_length (after_rounds (S j) w) <> html_length (after_rounds j w).

(** A step that adds to the trace nothing but clicks and their pauses. *)
Definition extends_clicking (f : world -> world) : Prop :=
  forall w, exists added,
    trace (f w) = (trace w ++ added)%list /\ Forall clicking added.

(** A step that evicts no entry of a successful click. *)
Definition keeps_true (f : world -> world) : Prop :=
  forall w k, CACHE w !! k = Some true -> CACHE (f w) !! k = Some true.
End WithSelenium.

End Playscrape.

(** * [src/playscrape/playscrape.py] *)
Module Legacy.

(** [l[i]] for [i >= 0]. *)
Definition getitem {A} (l : list A) (i : nat) : result A :=
  match l !! i with
  | Some a => Ok a
  | None => Raise IndexError
  end.

(** [enumerate(l)]. *)
Definition enumerate {A} (l : list A) : list (nat * A) :=
  combine (seq 0 (length l)) l.

(** [[r for i, r in enumerate(reviews) if i % 2 == 0]]. *)
Definition even_positions {A} (reviews : list A) : list A :=
  map snd (List.filter (fun ir => (fst ir mod 2 =? 0)%nat)
                       (enumerate reviews)).

(** The test of lines 54-56. *)
Definition is_anchor (element : node) : bool :=
  match get_aria_label element with
  | Some _rating =>
      endswith _rating "stars out of five stars"
      && (String.length _rating =? 31)%nat
  | None => false
  end.

(** The variable [element] after the loop of lines 52-57: the first anchor,
    or else the last [div] that the loop went through. *)
Fixpoint anchor_loop (divs : list Bs4.element)
    (element : local Bs4.element) : local Bs4.element :=
  match divs with
  | [] => element
  | e :: divs =>
      if is_anchor (fst e) then Bound e else anchor_loop divs (Bound e)
  end.

(** One iteration of the loop of lines 65-71 on [(rating, _review)].  The
    label ends with a suffix of 23 characters, so [_rating[6]] exists. *)
Definition scan_child (acc : option string * list string) (child : node)
  : option string * list string :=
  let '(rating, _review) := acc in
  let rating :=
    match get_aria_label child with
    | Some _rating =>
        if endswith _rating "stars out of five stars"
        then Some (substring 6 1 _rating) else rating
    | None => rating
    end in
  if (0 <? length (findChildren child))%nat || String.eqb (text child) ""
  then (rating, _review)
  else (rating, (_review ++ [text child])%list).

(** The body of the loop of lines 62-83 for one [parent]: [Ok None] is
    [continue], [Ok (Some data)] is [reviews.append(data)]. *)
Definition scrape_parent (parent : node) : result (option review) :=
  let '(rating, _review) :=
    fold_left scan_child (findChildren parent) (None, []) in
  if (length _review =? 0)%nat then Ok None else
  l ← last_item _review;
  let reply := is_date l in
  let _review := if reply then drop_last_two _review else _review in
  if reply && (length _review =? 0)%nat then Ok None else
  second ← getitem _review 1;
  if negb (is_date second) then Ok None else
  first ← getitem _review 0;
  second ← getitem _review 1;
  text ← (if (2 <? length _review)%nat then last_item _review else Ok "");
  Ok (Some (mkReview first second rating text)).

(** The loop of lines 62-83 over the remaining parents. *)
Fixpoint scrape_loop (parents : list element) (reviews : list review)
  : result (list review) :=
  match parents with
  | [] => Ok reviews
  | parent :: parents =>
      data ← scrape_parent (fst parent);
      scrape_loop parents
        (match data with
         | Some data => (reviews ++ [data])%list
         | None => reviews
         end)
  end.

(** The variable [rating] after the loop of lines 65-71. *)
Definition final_rating (c : node) : option string :=
  fst (fold_left scan_child (findChildren c) (None, [])).

(** The comprehension of line 84 when [enumerate] counts from [start]. *)
Definition keep_from {A} (start : nat) (l : list A) : list A :=
  map snd (List.filter (fun ir : nat * A => (fst ir mod 2 =? 0)%nat)
                       (combine (seq start (length l)) l)).

Section WithBs4.
Context (bs4 : Bs4.library).

(** The list [parents] of line 59. *)
Definition scrape_parents (source : string) : result (list element) :=
  let soup := BeautifulSoup (html_parser bs4 source) in
  element ← read_local (anchor_loop (find_all soup "div") Unbound);
  p ← parent (Some element);
  p ← parent p;
  p ← parent p;
  p ← parent p;
  p ← parent p;
  p ← parent p;
  _class ← getitem_class p;
  mret (find_all_class bs4 soup "div" _class).

(** The list [reviews] when line 84 is reached; the [print] of line 60
    is left out. *)
Definition scrape_reviews (source : string) : result (list review) :=
  parents ← scrape_parents source;
  scrape_loop parents [].

Definition scrape (source : string) : result (list review) :=
  reviews ← scrape_reviews source;
  mret (even_positions reviews).
End WithBs4.

End Legacy.

(** * Sample pages and a sample browser *)
Module Fixtures.

Definition leaf (s : string) : node :=
  Tag "span" None None [NavigableString s].

(** The star rating of a card, six levels below the card. *)
Definition stars (label : string) : node :=
  let wrap n := Tag "div" None None [n] in
  wrap (wrap (wrap (wrap (wrap (Tag "div" (Some label) None []))))).

Definition card (body : list node) : node :=
  Tag "div" None (Some ["rv"]) body.

Definition four_stars : node := stars "Rated 4 stars out of five stars".

(** A review followed by the reply of the developer. *)
Definition card_with_reply : node :=
  card [four_stars; leaf "Alice"; leaf "June 1, 2020";
        leaf "Dev"; leaf "June 2, 2020"].

(** A card that holds a name and a reply only. *)
Definition card_three_leaves : node :=
  card [four_stars; leaf "Alice"; leaf "Dev"; leaf "June 2, 2020"].

(** A review without a star rating. *)
Definition card_without_rating : node :=
  card [leaf "Alice"; leaf "June 1, 2020"; leaf "Nice"].

Definition card_bad_date : node :=
  card [four_stars; leaf "Alice"; leaf "Nov 23, 1234"; leaf "Nice"].

Definition card_alice : node :=
  card [four_stars; leaf "Alice"; leaf "June 1, 2020"; leaf "Nice"].

Definition card_bob : node :=
  card [stars "Rated 2 stars out of five stars";
        leaf "Bob"; leaf "June 3, 2020"; leaf "Slow"].

(** The sample parser knows two pages. *)
Definition page_two_reviews : string := "<two reviews>".
Definition page_no_anchor : string := "<no rating>".

Definition sample_parser (markup : string) : list node :=
  if String.eqb markup page_two_reviews then [card_alice; card_bob]
  else if String.eqb markup page_no_anchor then [card_without_rating]
  else [].

(** A tag is kept when one of its classes is in the signature. *)
Definition sample_class_matches (signature : list string)
    (cls : option (list string)) : bool :=
  match cls with
  | Some cls =>
      existsb (fun c => existsb (String.eqb c) signature) cls
  | None => false
  end.

Definition sample_bs4 : Bs4.library :=
  {| html_parser := sample_parser;
     class_matches := sample_class_matches |}.

(** A browser whose page grows by one character each time the END key is
    sent, up to three characters.  It shows one button that can be clicked
    and one that is covered by another element. *)
Definition grown (d : nat) : string := String.concat "" (repeat "x" d).

#[local] Instance sample_selenium : Selenium.api :=
  {| Selenium.driver := nat;
     Selenium.web_element := string;
     Selenium.str := fun element => element;
     Selenium.chrome_get := fun _ _ => 0%nat;
     Selenium.find_elements := fun _ xp =>
       if String.eqb xp (String.append "//button[text()="
            (String (ascii_of_nat 34)
               (String.append "Full Review"
                  (String (ascii_of_nat 34) "]"))))
       then ["button-1"; "covered"] else [];
     Selenium.click := fun element d =>
       (negb (String.eqb element "covered"), d);
     Selenium.send_keys_END := fun d => if (d <? 3)%nat then S d else d;
     Selenium.wait := fun _ d => d;
     Selenium.page_source := grown;
     Selenium.title := fun _ => "Sample - Apps on Google Play" |}.

Definition fresh : Playscrape.world := Playscrape.mkWorld 0%nat ∅ [].

Definition button_1 : Selenium.web_element := "button-1".
Definition covered : Selenium.web_element := "covered".

(** The state after a first crawl from an empty cache. *)
Definition after_first_crawl : Playscrape.world :=
  snd (Playscrape.expand_and_parse_reviews sample_bs4 "chromedriver"
         "app.one" 10 fresh).

End Fixtures.


(** * The rest of [src/playscrape.py] *)

(** ** The containers of a snapshot *)
Module Snapshot.

Section WithBs4.
Context (bs4 : Bs4.library).

(** The list [review_containers] of line 172: lines 163-172 of
    [parse_reviews]. *)
Definition review_containers (html_source : string)
  : result (list element) :=
  let soup := BeautifulSoup (html_parser bs4 html_source) in
  let _element :=
    match filter (fun e : element =>
                    truthy (Playscrape.get_rating (fst e)) = true)
                 (find_all soup "div") with
    | e :: _ => Bound e
    | [] => Unbound
    end in
  _element ← read_local _element;
  p ← parent (Some _element);
  p ← parent p;
  p ← parent p;
  p ← parent p;
  p ← parent p;
  p ← parent p;
  parent_class ← getitem_class p;
  mret (find_all_class bs4 soup "div" parent_class).
End WithBs4.

End Snapshot.

(** ** Vocabulary for the cache and the trace *)

(** A cache that holds no failed click. *)
Definition only_true (cache : gmap string bool) : Prop :=
  forall k v, cache !! k = Some v -> v = true.

(** The events that occur while a session is open. *)
Definition in_session (ev : event) : Prop :=
  match ev with
  | OpenBrowser _ | CloseBrowser | WriteFile _ => False
  | _ => True
  end.

(** ** The command line *)

(** What the command takes from its host as given: [Path.expanduser], the
    status of the response to [requests.get(url)], and whether
    [response.raise_for_status()] raises [HTTPError] for a status. *)
Module Host.

Class api : Type :=
  { expanduser : string -> string;
    status_code : string -> Z;
    raises_for_status : Z -> bool }.

End Host.

Module Command.

Inductive cli_exn : Type :=
| ValueError
| HTTPError (status : Z)
| ScraperError (e : exn).

Inductive outcome (A : Type) : Type :=
| Done (a : A)
| Failed (e : cli_exn).
Arguments Done {A} a.
Arguments Failed {A} e.

(** What the command does before it opens a browser, in order. *)
Inductive cli_event : Type :=
| Stdout (text : string)
| HttpGet (url : string).

(** The text on the standard output. *)
Definition printed (events : list cli_event) : string :=
  String.concat ""
    (omap (fun ev => match ev with
                     | Stdout text => Some text
                     | HttpGet _ => None
                     end) events).

Definition newline : string := String (ascii_of_nat 10) EmptyString.
Definition carriage_return : string := String (ascii_of_nat 13) EmptyString.

(** The two marks, in UTF-8. *)
Definition CHECK_MARK : string := "✅".
Definition CROSS_MARK : string := "❌".

(** [click.secho(message, nl=nl)]; colours are left out. *)
Definition secho (message : string) (nl : bool) : cli_event :=
  Stdout (if nl then message +:+ newline else message).

(** [validating_echo(app_id, end, nl=nl)]. *)
Definition validating_echo (app_id end_ : string) (nl : bool)
  : list cli_event :=
  [secho "Validating " false; secho app_id false;
   secho (" ... " +:+ end_) nl].

(** [str.split(sep)] for a separator of one character. *)
Fixpoint split (sep : ascii) (s : string) : list string :=
  match s with
  | EmptyString => [EmptyString]
  | String c s' =>
      if Ascii.eqb c sep then EmptyString :: split sep s'
      else match split sep s' with
           | first :: rest => String c first :: rest
           | [] => [String c EmptyString]
           end
  end.

Section WithHost.
Context `{!Host.api}.

Definition validate_app_id (app_id : string)
  : outcome string * list cli_event :=
  let out := validating_echo app_id carriage_return false in
  let url := Playscrape.PLAY_URL app_id in
  let out := (out ++ [HttpGet url])%list in
  let status := Host.status_code url in
  if negb (status =? 200) then
    let out := (out ++ validating_echo app_id CROSS_MARK true)%list in
    if Host.raises_for_status status then (Failed (HTTPError status), out)
    else (Done app_id, (out ++ validating_echo app_id CHECK_MARK true)%list)
  else (Done app_id, (out ++ validating_echo app_id CHECK_MARK true)%list).

(** [list(map(validate_app_id, app_ids))]: the first exception ends it. *)
Fixpoint validate_all (app_ids : list string)
  : outcome (list string) * list cli_event :=
  match app_ids with
  | [] => (Done [], [])
  | app_id :: app_ids =>
      match validate_app_id app_id with
      | (Failed e, out) => (Failed e, out)
      | (Done app_id, out) =>
          match validate_all app_ids with
          | (Failed e, out') => (Failed e, (out ++ out')%list)
          | (Done validated, out') =>
              (Done (app_id :: validated), (out ++ out')%list)
          end
      end
  end.

Section WithBrowser.
Context `{!Selenium.api} (bs4 : Bs4.library).

(** The command [playscrape], lines 244-271: the outcome, the events before
    the first browser is opened together with the closing messages, and the
    state of the process, whose trace holds the events of the loop.  The
    message with the elapsed time is left out; the two directories are
    printed relative to the directory of the script, as [HTML_PATH] and
    [DATA_PATH] are. *)
Definition playscrape (driver_location app_ids : string) (max_scrolls : Z)
    (w : Playscrape.world)
  : outcome unit * list cli_event * Playscrape.world :=
  let driver_location := Host.expanduser driver_location in
  let app_ids := split "," app_ids in
  if decide (app_ids = [EmptyString]) then (Failed ValueError, [], w) else
  match validate_all app_ids with
  | (Failed e, out) => (Failed e, out, w)
  | (Done app_ids, out) =>
      match Playscrape.playscrape bs4 driver_location app_ids max_scrolls w
      with
      | (Raise e, w) => (Failed (ScraperError e), out, w)
      | (Ok _, w) =>
          (Done tt,
           (out ++ [secho "Raw html written to " false;
                    secho "html_cache" true;
                    secho "Processed data written to " false;
                    secho "data" true])%list,
           w)
      end
  end.
End WithBrowser.
End WithHost.

End Command.

(** * The crawl of [src/playscrape/playscrape.py] *)
Module LegacyCrawl.
Import Selenium.

(** What the earlier script does to the browser, in order; pauses are in
    milliseconds, since one of them lasts a second and a half. *)
Inductive step : Type :=
| Clicked (key : string) (ok : bool)
| Slept (milliseconds : Z)
| SentEnd.

Definition is_clicked (s : step) : bool :=
  match s with
  | Clicked _ _ => true
  | _ => false
  end.

(** The number of calls of [e.click()] in a log. *)
Definition clicked (l : list step) : nat :=
  length (List.filter is_clicked l).

Section WithSelenium.
Context `{!Selenium.api}.

(** What the page does during a pause of so many milliseconds. *)
Context (pause : Z -> driver -> driver).

Record state : Type := mkState
  { browser : driver;
    log : list step }.

Definition record (s : step) (st : state) : state :=
  mkState (browser st) (log st ++ [s])%list.

(** [time.sleep(seconds)], the duration given in milliseconds. *)
Definition sleep_ms (milliseconds : Z) (st : state) : state :=
  record (Slept milliseconds)
         (mkState (pause milliseconds (browser st)) (log st)).

(** The body of the loop of [click_live], lines 20-25. *)
Definition click_one (st : state) (e : web_element) : state :=
  let '(ok, d) := click e (browser st) in
  let st := record (Clicked (str e) ok) (mkState d (log st)) in
  if ok then sleep_ms 1500 st else st.

Definition click_live (element_type text : string) (st : state) : state :=
  fold_left click_one
            (find_elements (browser st) (Playscrape.xpath element_type text))
            st.

Definition source_len (st : state) : nat :=
  String.length (page_source (browser st)).

(** One pass of the body of the [while] loop, lines 43-46. *)
Definition pass (sleep : Z) (st : state) : state :=
  let st := click_live "button" "Full Review" st in
  let st := record SentEnd (mkState (send_keys_END (browser st)) (log st)) in
  sleep_ms (1000 * sleep) st.

(** The [while] loop of lines 41-46, entered with the values of
    [source_length] and [new_length]; [None] when [fuel] passes do not
    bring it to its end. *)
Fixpoint scroll_while (fuel : nat) (sleep : Z)
    (source_length new_length : nat) (st : state) : option state :=
  if (source_length <? new_length)%nat then
    match fuel with
    | O => None
    | S fuel =>
        let source_length := new_length in
        let st := pass sleep st in
        let new_length := source_len st in
        scroll_while fuel sleep source_length new_length st
    end
  else Some st.

(** The [for] loop of [crawl] over the pages that are left. *)
Fixpoint crawl_pages (fuel pages : nat) (sleep : Z) (st : state)
  : option state :=
  match pages with
  | O => Some st
  | S pages =>
      let source_length := source_len st in
      let new_length := S source_length in
      match scroll_while fuel sleep source_length new_length st with
      | None => None
      | Some st =>
          crawl_pages fuel pages sleep (click_live "span" "Show More" st)
      end
  end.

Definition crawl (fuel : nat) (n_pages sleep : Z) (st : state)
  : option state :=
  crawl_pages fuel (Z.to_nat n_pages) sleep st.

End WithSelenium.

End LegacyCrawl.

(** ** Dates as the store writes them *)
Module Written.

Definition month_title (m : Z) : string :=
  nth (Z.to_nat (m - 1))
      ["January"; "February"; "March"; "April"; "May"; "June"; "July";
       "August"; "September"; "October"; "November"; "December"] "".

Definition digit_char (n : Z) : ascii := ascii_of_N (Z.to_N (48 + n)).

(** The day without a leading zero. *)
Definition show_day (d : Z) : list ascii :=
  if d <? 10 then [digit_char d]
  else [digit_char (d / 10); digit_char (d mod 10)].

(** The year with four digits. *)
Definition show_year (y : Z) : list ascii :=
  [digit_char (y / 1000); digit_char (y / 100 mod 10);
   digit_char (y / 10 mod 10); digit_char (y mod 10)].

(** The text [Month D, YYYY] of a date, such as [June 1, 2020]. *)
Definition written_date (y m d : Z) : string :=
  string_of_list_ascii
    (list_ascii_of_string (month_title m)
     ++ " "%char :: show_day d
     ++ ","%char :: " "%char :: show_year y)%list.

End Written.

(** ** More samples *)
Module MoreFixtures.
Import Fixtures.

(** A host that knows one application, reports a second one as missing and
    answers for a third one without content. *)
#[local] Instance sample_host : Host.api :=
  {| Host.expanduser := fun path => path;
     Host.status_code := fun url =>
       if String.eqb url (Playscrape.PLAY_URL "com.nhs.online.nhsonline")
       then 200
       else if String.eqb url (Playscrape.PLAY_URL "no.content") then 204
       else 404;
     Host.raises_for_status := fun status =>
       (400 <=? status) && (status <? 600) |}.

(** A browser in which every button can be clicked. *)
#[local] Instance obliging_selenium : Selenium.api :=
  {| Selenium.driver := nat;
     Selenium.web_element := string;
     Selenium.str := fun element => element;
     Selenium.chrome_get := fun _ _ => 0%nat;
     Selenium.find_elements := fun _ _ => ["button-1"; "button-2"];
     Selenium.click := fun _ d => (true, d);
     Selenium.send_keys_END := fun d => if (d <? 3)%nat then S d else d;
     Selenium.wait := fun _ d => d;
     Selenium.page_source := grown;
     Selenium.title := fun _ => "Sample - Apps on Google Play" |}.

(** A browser whose page is empty until the END key is sent and has two
    characters from then on. *)
#[local] Instance small_selenium : Selenium.api :=
  {| Selenium.driver := bool;
     Selenium.web_element := string;
     Selenium.str := fun element => element;
     Selenium.chrome_get := fun _ _ => false;
     Selenium.find_elements := fun _ _ => ["button-1"];
     Selenium.click := fun _ d => (true, d);
     Selenium.send_keys_END := fun _ => true;
     Selenium.wait := fun _ d => d;
     Selenium.page_source := fun d => if d then "xx" else "";
     Selenium.title := fun _ => "Sample - Apps on Google Play" |}.

Definition small_fresh : @LegacyCrawl.state small_selenium :=
  @LegacyCrawl.mkState small_selenium false [].

Definition obliging_fresh : @Playscrape.world obliging_selenium :=
  @Playscrape.mkWorld obliging_selenium 0%nat ∅ [].

(** A card whose star rating lies one level too high for line 171. *)
Definition shallow_page : string := "<shallow>".
Definition level_page : string := "<five levels>".
Definition headless_page : string := "<no class>".
Definition broken_page : string := "<one bad card>".

Definition shallow_stars (depth : nat) (label : string) : node :=
  Nat.iter depth (fun n => Tag "div" None None [n])
           (Tag "div" (Some label) None []).

Definition more_parser (markup : string) : list node :=
  if String.eqb markup shallow_page
  then [shallow_stars 3 "Rated 4 stars out of five stars"]
  else if String.eqb markup level_page
  then [shallow_stars 4 "Rated 4 stars out of five stars"]
  else if String.eqb markup headless_page
  then [shallow_stars 6 "Rated 4 stars out of five stars"]
  else if String.eqb markup broken_page
  then [card_alice; card_three_leaves; card_bob]
  else sample_parser markup.

Definition more_bs4 : Bs4.library :=
  {| html_parser := more_parser;
     class_matches := sample_class_matches |}.

End MoreFixtures.
(** * Properties of the extractor of [src/playscrape.py] *)
Module ExtractorFacts.
Import Playscrape Fixtures.

Ltac unfold_bind := unfold mbind, mret, result_bind, result_ret in *.

Lemma is_date_june_1 : is_date "June 1, 2020" = true.
Proof. vm_compute. reflexivity. Qed.

Lemma is_date_june_2 : is_date "June 2, 2020" = true.
Proof. vm_compute. reflexivity. Qed.




(** What [extract_review] returns, by the values that are left after the
    truncation of line 145. *)
Lemma extract_review_cases (c : node) (l : list string) :
  collect_parts (findChildren c) <> [] ->
  truncate_reply (collect_parts (findChildren c)) = Ok l ->
  extract_review c =
    match l with
    | [] => Ok None
    | [_] => Raise IndexError
    | a :: d :: rest =>
        if is_date d then
          match first_rating (findChildren c) with
          | Bound r =>
              Ok (Some (mkReview a d (Some r) (default "" (last rest))))
          | Unbound => Raise UnboundLocalError
          end
        else Ok None
    end.
Proof.
  intros Hne Ht. unfold extract_review. rewrite Ht.
  destruct (collect_parts (findChildren c)) as [|p ps]; [done|].
  simpl. unfold_bind.
  destruct l as [|a [|d rest]]; simpl; try reflexivity.
  destruct (is_date d); simpl; [|reflexivity].
  destruct rest as [|x rest']; simpl.
  - destruct (first_rating _); reflexivity.
  - unfold last_item.
    destruct (last (x :: rest')) as [y|] eqn:Hl.
    + simpl. destruct (first_rating _); reflexivity.
    + apply last_None in Hl. discriminate.
Qed.

Lemma truncate_reply_ok (parts : list string) :
  parts <> [] -> exists l, truncate_reply parts = Ok l.
Proof.
  intros Hne. unfold truncate_reply, last_item. unfold_bind.
  destruct (last parts) eqn:Hl.
  - eexists. reflexivity.
  - apply last_None in Hl. contradiction.
Qed.



(** A candidate whose second value is not a date is dropped, whatever its
    first value and whether or not it carries a rating. *)
Lemma bad_date_is_dropped (c : node) (a d : string) (rest : list string) :
  truncate_reply (collect_parts (findChildren c)) = Ok (a :: d :: rest) ->
  is_date d = false ->
  extract_review c = Ok None.
Proof.
  intros Ht Hd.
  assert (Hne : collect_parts (findChildren c) <> []).
  { intros E. rewrite E in Ht. discriminate. }
  rewrite (extract_review_cases c _ Hne Ht), Hd. reflexivity.
Qed.

(** A candidate without text values is dropped. *)
Lemma no_text_is_dropped (c : node) :
  collect_parts (findChildren c) = [] -> extract_review c = Ok None.
Proof. intros H. unfold extract_review. rewrite H. reflexivity. Qed.

(** One value left after the truncation: the second [pop(0)] raises. *)
Lemma single_value_raises (c : node) (a : string) :
  truncate_reply (collect_parts (findChildren c)) = Ok [a] ->
  extract_review c = Raise IndexError.
Proof.
  intros Ht.
  assert (Hne : collect_parts (findChildren c) <> []).
  { intros E. rewrite E in Ht. discriminate. }
  rewrite (extract_review_cases c _ Hne Ht). reflexivity.
Qed.

(** C1.  On a candidate whose text values are a name, a reply author and a
    reply date, the truncation leaves one value and [extract_review] raises
    [IndexError] instead of rejecting the candidate; the exception then
    leaves [parse_reviews] and ends the batch. *)
Theorem extract_review_raises_after_truncation :
  collect_parts (findChildren card_three_leaves)
    = ["Alice"; "Dev"; "June 2, 2020"]
  /\ truncate_reply (collect_parts (findChildren card_three_leaves))
     = Ok ["Alice"]
  /\ extract_review card_three_leaves = Raise IndexError.
Proof. repeat split; vm_compute; reflexivity. Qed.

(** C7.  On a candidate that passes every check and has no rating below
    it, the variable [_rating] is never assigned and [extract_review]
    raises [UnboundLocalError]; the earlier script starts from
    [rating = None] and emits the record without a rating. *)
Theorem extract_review_raises_without_rating :
  first_rating (findChildren card_without_rating) = Unbound
  /\ truncate_reply (collect_parts (findChildren card_without_rating))
     = Ok ["Alice"; "June 1, 2020"; "Nice"]
  /\ extract_review card_without_rating = Raise UnboundLocalError
  /\ Legacy.scrape_parent card_without_rating
     = Ok (Some (mkReview "Alice" "June 1, 2020" None "Nice")).
Proof. repeat split; vm_compute; reflexivity. Qed.

(** The same on every candidate: no rating and a valid second value. *)
Lemma valid_without_rating_raises (c : node) (a d : string)
    (rest : list string) :
  truncate_reply (collect_parts (findChildren c)) = Ok (a :: d :: rest) ->
  is_date d = true ->
  first_rating (findChildren c) = Unbound ->
  extract_review c = Raise UnboundLocalError.
Proof.
  intros Ht Hd Hr.
  assert (Hne : collect_parts (findChildren c) <> []).
  { intros E. rewrite E in Ht. discriminate. }
  rewrite (extract_review_cases c _ Hne Ht), Hd, Hr. reflexivity.
Qed.

(** C2, as stated, fails: the truncation of four values leaves two, and
    the candidate is accepted. *)
Lemma reply_truncation_counterexample :
  ~ (forall (c : node) (a r : string),
       collect_parts (findChildren c)
         = [a; "June 1, 2020"; r; "June 2, 2020"] ->
       truncate_reply (collect_parts (findChildren c)) = Ok [a]
       /\ extract_review c = Ok None).
Proof.
  intros H.
  destruct (H card_with_reply "Alice" "Dev") as [_ Hx].
  - vm_compute. reflexivity.
  - vm_compute in Hx. discriminate.
Qed.

(** C2, amended.  On a candidate whose text values are
    [[a; "June 1, 2020"; r; "June 2, 2020"]] the truncation leaves
    [[a; "June 1, 2020"]], and with a rating [s] below the candidate the
    record [{reviewer: a, date: "June 1, 2020", rating: s, review: ""}] is
    emitted. *)
Theorem reply_truncation_keeps_review (c : node) (a r s : string)
    (Hparts : collect_parts (findChildren c)
              = [a; "June 1, 2020"; r; "June 2, 2020"])
    (Hrating : first_rating (findChildren c) = Bound s) :
  truncate_reply (collect_parts (findChildren c))
    = Ok [a; "June 1, 2020"]
  /\ extract_review c
     = Ok (Some (mkReview a "June 1, 2020" (Some s) "")).
Proof.
  assert (Ht : truncate_reply (collect_parts (findChildren c))
               = Ok [a; "June 1, 2020"]).
  { rewrite Hparts. unfold truncate_reply, last_item. simpl last.
    unfold_bind. rewrite is_date_june_2. reflexivity. }
  split; [exact Ht|].
  assert (Hne : collect_parts (findChildren c) <> []).
  { rewrite Hparts. done. }
  rewrite (extract_review_cases c _ Hne Ht), is_date_june_1, Hrating.
  reflexivity.
Qed.

Lemma reply_truncation_keeps_review_witness :
  truncate_reply (collect_parts (findChildren card_with_reply))
    = Ok ["Alice"; "June 1, 2020"]
  /\ extract_review card_with_reply
     = Ok (Some (mkReview "Alice" "June 1, 2020" (Some "4") "")).
Proof.
  apply (reply_truncation_keeps_review card_with_reply "Alice" "Dev" "4");
    vm_compute; reflexivity.
Defined.

End ExtractorFacts.

(** * The two parsers on the same snapshot *)
Module ParserFacts.
Import Playscrape Fixtures ExtractorFacts.

Lemma substring_one_nonempty (n : nat) (s : string) :
  (n < String.length s)%nat -> substring n 1 s <> "".
Proof.
  revert s. induction n as [|n IH]; intros [|c s]; simpl; try lia.
  - discriminate.
  - intros H. apply IH. lia.
Qed.

(** The loops of both scripts stop at the same elements. *)
Lemma truthy_get_rating (n : node) :
  truthy (get_rating n) = Legacy.is_anchor n.
Proof.
  unfold get_rating, Legacy.is_anchor.
  destruct (get_aria_label n) as [label|]; [|reflexivity].
  destruct (endswith label "stars out of five stars"); [|reflexivity].
  simpl. destruct (String.length label =? 31)%nat eqn:Hlen; [|reflexivity].
  apply Nat.eqb_eq in Hlen. simpl.
  destruct (String.eqb_spec (substring 6 1 label) "") as [E|_]; [|reflexivity].
  exfalso. revert E. apply substring_one_nonempty. lia.
Qed.

Lemma anchor_loop_first (divs : list element) (e0 : local element)
    (e : element) (rest : list element) :
  filter (fun e : element => truthy (get_rating (fst e)) = true) divs
    = e :: rest ->
  Legacy.anchor_loop divs e0 = Bound e.
Proof.
  revert e0. induction divs as [|d divs IH]; intros e0; [discriminate|].
  rewrite filter_cons. simpl. rewrite <- truthy_get_rating.
  destruct (decide (truthy (get_rating (fst d)) = true)) as [Hd|Hd].
  - rewrite Hd. intros [= -> _]. reflexivity.
  - apply not_true_is_false in Hd. rewrite Hd. apply IH.
Qed.

Lemma filter_none {A} (P : A -> Prop) `{!forall x, Decision (P x)}
    (l : list A) :
  (forall x, x ∈ l -> ~ P x) -> filter P l = [].
Proof.
  induction l as [|x l IH]; intros Hall; [reflexivity|].
  rewrite filter_cons_False.
  - apply IH. intros y Hy. apply Hall. apply elem_of_cons. right. exact Hy.
  - apply Hall. apply elem_of_cons. left. reflexivity.
Qed.

(** C10.  On a snapshot without a [div] whose [aria-label] ends with
    [stars out of five stars] and has 31 characters, the loop of line 169
    never assigns [_element], and [parse_reviews] raises
    [UnboundLocalError]: it does not return the empty list. *)
Theorem parse_reviews_needs_anchor (bs4 : Bs4.library) (html : string)
    (H : forall (e : element) (label : string),
        e ∈ find_all (BeautifulSoup (html_parser bs4 html)) "div" ->
        get_aria_label (fst e) = Some label ->
        ~ (endswith label "stars out of five stars" = true
           /\ String.length label = 31%nat)) :
  parse_reviews bs4 html = Raise UnboundLocalError
  /\ parse_reviews bs4 html <> Ok [].
Proof.
  assert (E : parse_reviews bs4 html = Raise UnboundLocalError).
  { unfold parse_reviews. rewrite filter_none; [reflexivity|].
    intros e He. unfold get_rating.
    destruct (get_aria_label (fst e)) as [label|] eqn:Hl; [|discriminate].
    destruct (endswith label "stars out of five stars") eqn:Hs;
      [|discriminate].
    destruct (String.length label =? 31)%nat eqn:Hn; [|discriminate].
    exfalso. apply (H e label He Hl). split; [exact Hs|].
    apply Nat.eqb_eq. exact Hn. }
  split; [exact E|]. rewrite E. discriminate.
Qed.

Lemma parse_reviews_needs_anchor_witness :
  parse_reviews sample_bs4 page_no_anchor = Raise UnboundLocalError
  /\ parse_reviews sample_bs4 page_no_anchor <> Ok [].
Proof.
  apply (parse_reviews_needs_anchor sample_bs4 page_no_anchor).
  intros e label He Hl.
  assert (E : find_all (BeautifulSoup (html_parser sample_bs4 page_no_anchor))
                "div"
              = [(card_without_rating,
                  [BeautifulSoup [card_without_rating]])])
    by (vm_compute; reflexivity).
  rewrite E in He. apply list_elem_of_singleton in He. subst e.
  simpl in Hl. discriminate.
Defined.

(** ** The earlier script keeps every other record *)

Lemma scan_child_parts (el : node) (rating : option string)
    (acc : list string) :
  snd (Legacy.scan_child (rating, acc) el)
  = (acc ++ collect_parts [el])%list.
Proof.
  unfold Legacy.scan_child, collect_parts, get_element_text. simpl map.
  destruct (0 <? length (findChildren el))%nat; simpl.
  - rewrite app_nil_r. reflexivity.
  - destruct (String.eqb (text el) ""); simpl.
    + rewrite app_nil_r. reflexivity.
    + reflexivity.
Qed.

Lemma collect_parts_cons (el : node) (els : list node) :
  collect_parts (el :: els)
  = (collect_parts [el] ++ collect_parts els)%list.
Proof.
  unfold collect_parts. simpl map.
  destruct (get_element_text el) as [s|]; simpl; [|reflexivity].
  destruct (String.eqb s ""); reflexivity.
Qed.

(** The list [_review] that the loop of lines 65-71 builds is the list
    [review_parts] of the packaged script. *)
Lemma scan_children_parts (els : list node) (rating : option string)
    (acc : list string) :
  snd (fold_left Legacy.scan_child els (rating, acc))
  = (acc ++ collect_parts els)%list.
Proof.
  revert rating acc. induction els as [|el els IH]; intros rating acc.
  - simpl. rewrite app_nil_r. reflexivity.
  - cbn [fold_left].
    pose proof (scan_child_parts el rating acc) as Hstep.
    destruct (Legacy.scan_child (rating, acc) el) as [rating' acc'].
    simpl in Hstep. subst acc'.
    rewrite IH, (collect_parts_cons el els), <- app_assoc. reflexivity.
Qed.

Lemma scrape_parent_cases (c : node) (l : list string) :
  collect_parts (findChildren c) <> [] ->
  truncate_reply (collect_parts (findChildren c)) = Ok l ->
  Legacy.scrape_parent c =
    match l with
    | [] => Ok None
    | [_] => Raise IndexError
    | a :: d :: rest =>
        if is_date d
        then Ok (Some (mkReview a d (Legacy.final_rating c)
                                (default "" (last rest))))
        else Ok None
    end.
Proof.
  intros Hne Ht. unfold Legacy.scrape_parent, Legacy.final_rating.
  pose proof (scan_children_parts (findChildren c) None []) as Hs.
  destruct (fold_left Legacy.scan_child (findChildren c) (None, []))
    as [rating _review].
  simpl in Hs. subst _review.
  destruct (collect_parts (findChildren c)) as [|p ps] eqn:Hp; [done|].
  simpl length. simpl Nat.eqb. cbv iota.
  unfold truncate_reply in Ht. unfold_bind.
  destruct (last_item (p :: ps)) as [x|e]; [|discriminate].
  injection Ht as Ht. destruct (is_date x).
  - rewrite Ht. simpl andb.
    destruct l as [|a [|d rest]]; simpl; try reflexivity.
    destruct (is_date d); simpl; [|reflexivity].
    destruct rest as [|y rest]; simpl; [reflexivity|].
    unfold last_item.
    destruct (last (a :: d :: y :: rest)) as [z|] eqn:Hl.
    + simpl in Hl. simpl. rewrite Hl. reflexivity.
    + apply last_None in Hl. discriminate.
  - rewrite Ht. simpl andb. cbv iota.
    destruct l as [|a [|d rest]]; simpl; try discriminate; try reflexivity.
    destruct (is_date d); simpl; [|reflexivity].
    destruct rest as [|y rest]; simpl; [reflexivity|].
    unfold last_item.
    destruct (last (a :: d :: y :: rest)) as [z|] eqn:Hl.
    + simpl in Hl. simpl. rewrite Hl. reflexivity.
    + apply last_None in Hl. discriminate.
Qed.

(** Where [extract_review] returns, the loop body of the earlier script
    decides alike, with the same reviewer, date and text. *)
Lemma scrape_parent_agrees (c : node) (o : option review) :
  extract_review c = Ok o ->
  exists o', Legacy.scrape_parent c = Ok o' /\ same_outcome o o'.
Proof.
  intros H.
  destruct (collect_parts (findChildren c)) as [|p ps] eqn:Hp.
  { rewrite (no_text_is_dropped c Hp) in H. injection H as <-.
    exists None. split; [|exact I].
    unfold Legacy.scrape_parent.
    pose proof (scan_children_parts (findChildren c) None []) as Hs.
    destruct (fold_left Legacy.scan_child (findChildren c) (None, []))
      as [rating _review].
    simpl in Hs. rewrite Hs, Hp. reflexivity. }
  assert (Hne : collect_parts (findChildren c) <> [])
    by (rewrite Hp; done).
  destruct (truncate_reply_ok _ Hne) as [l Ht].
  rewrite (extract_review_cases c l Hne Ht) in H.
  rewrite (scrape_parent_cases c l Hne Ht).
  destruct l as [|a [|d rest]]; try discriminate.
  - injection H as <-. exists None. split; [reflexivity|exact I].
  - destruct (is_date d).
    + destruct (first_rating (findChildren c)); [discriminate|].
      injection H as <-. eexists. split; [reflexivity|].
      repeat split.
    + injection H as <-. exists None. split; [reflexivity|exact I].
Qed.

Lemma scrape_loop_agrees (parents : list element)
    (rs : list (option review)) (acc : list review) :
  mapM (fun e : element => extract_review (fst e)) parents = Ok rs ->
  exists l', Legacy.scrape_loop parents acc = Ok (acc ++ l')%list
             /\ Forall2 same_text (accepted rs) l'.
Proof.
  revert rs acc. induction parents as [|p parents IH]; intros rs acc H.
  - injection H as <-. exists []. rewrite app_nil_r.
    split; [reflexivity|constructor].
  - simpl in H. unfold_bind.
    destruct (extract_review (fst p)) as [o|] eqn:Ho; [|discriminate].
    destruct (mapM _ parents) as [rs'|] eqn:Hm; [|discriminate].
    injection H as <-.
    destruct (scrape_parent_agrees _ _ Ho) as (o' & Ho' & Hsame).
    simpl. unfold_bind. rewrite Ho'.
    destruct o as [r|], o' as [r'|]; simpl in Hsame; try contradiction.
    + destruct (IH rs' (acc ++ [r'])%list eq_refl) as (l' & Hl' & Hf).
      exists (r' :: l'). rewrite Hl', <- app_assoc. simpl.
      split; [reflexivity|]. constructor; assumption.
    + destruct (IH rs' acc eq_refl) as (l' & Hl' & Hf).
      exists l'. split; assumption.
Qed.

(** ** Positions kept by the comprehension of line 84 *)

Lemma mod2_even (n : nat) : (n mod 2 =? 0)%nat = Nat.even n.
Proof.
  destruct (Nat.even n) eqn:He.
  - apply Nat.even_spec in He. destruct He as [k ->].
    rewrite Nat.mul_comm, Nat.Div0.mod_mul. reflexivity.
  - assert (Ho : Nat.odd n = true).
    { rewrite <- Nat.negb_even, He. reflexivity. }
    apply Nat.odd_spec in Ho. destruct Ho as [k ->].
    rewrite Nat.add_comm, Nat.mul_comm, Nat.Div0.mod_add. reflexivity.
Qed.

Lemma keep_from_cons {A} (start : nat) (x : A) (l : list A) :
  Legacy.keep_from start (x :: l)
  = if Nat.even start then x :: Legacy.keep_from (S start) l
    else Legacy.keep_from (S start) l.
Proof.
  unfold Legacy.keep_from. cbn [length seq combine List.filter fst].
  rewrite mod2_even. destruct (Nat.even start); reflexivity.
Qed.

Lemma keep_from_lookup {A} (l : list A) (start i : nat) :
  Legacy.keep_from start l !! i
  = l !! (if Nat.even start then 2 * i else 2 * i + 1)%nat.
Proof.
  revert start i. induction l as [|x l IH]; intros start i.
  - unfold Legacy.keep_from. simpl. destruct (Nat.even start); reflexivity.
  - rewrite keep_from_cons. destruct (Nat.even start) eqn:He.
    + destruct i as [|i]; [reflexivity|]. simpl lookup at 1.
      rewrite IH, Nat.even_succ, <- Nat.negb_even, He. simpl negb. cbv iota.
      replace (2 * S i)%nat with (S (2 * i + 1)) by lia. reflexivity.
    + rewrite IH, Nat.even_succ, <- Nat.negb_even, He. simpl negb. cbv iota.
      replace (2 * i + 1)%nat with (S (2 * i)) by lia. reflexivity.
Qed.

Lemma keep_from_length {A} (l : list A) (start : nat) :
  length (Legacy.keep_from start l)
  = if Nat.even start then Nat.div2 (S (length l))
    else Nat.div2 (length l).
Proof.
  revert start. induction l as [|x l IH]; intros start.
  - unfold Legacy.keep_from. simpl. destruct (Nat.even start); reflexivity.
  - rewrite keep_from_cons. destruct (Nat.even start) eqn:He.
    + simpl length. rewrite IH, Nat.even_succ, <- Nat.negb_even, He.
      reflexivity.
    + rewrite IH, Nat.even_succ, <- Nat.negb_even, He. reflexivity.
Qed.

Lemma even_positions_lookup {A} (l : list A) (i : nat) :
  Legacy.even_positions l !! i = l !! (2 * i)%nat.
Proof. apply (keep_from_lookup l 0 i). Qed.

Lemma even_positions_length {A} (l : list A) :
  length (Legacy.even_positions l) = Nat.div2 (S (length l)).
Proof. apply (keep_from_length l 0). Qed.

Lemma div2_succ_lt (n : nat) : (2 <= n -> Nat.div2 (S n) < n)%nat.
Proof.
  intros H. pose proof (Nat.div2_odd (S n)) as Hd.
  destruct (Nat.odd (S n)); simpl Nat.b2n in Hd; lia.
Qed.

(** C9.  Where [parse_reviews] returns its records [l], the earlier script
    accepts as many, with the same reviewers, dates and texts, and [scrape]
    returns of them only those at the even positions: half of them,
    rounded up.  From two records on, the two results differ. *)
Theorem scrape_keeps_even_positions (bs4 : Bs4.library) (html : string)
    (l : list review)
    (H : parse_reviews bs4 html = Ok l) :
  exists l',
    Legacy.scrape_reviews bs4 html = Ok l'
    /\ Forall2 same_text l l'
    /\ (exists kept, Legacy.scrape bs4 html = Ok kept
          /\ (forall i, kept !! i = l' !! (2 * i)%nat)
          /\ length kept = Nat.div2 (S (length l)))
    /\ ((2 <= length l)%nat ->
        Legacy.scrape bs4 html <> parse_reviews bs4 html).
Proof.
  unfold parse_reviews in H.
  destruct (filter _ (find_all _ "div")) as [|e rest] eqn:Hf;
    [discriminate|].
  assert (Hp : exists parents rs,
             Legacy.scrape_parents bs4 html = Ok parents
             /\ mapM (fun e : element => extract_review (fst e)) parents
                = Ok rs
             /\ l = accepted rs).
  { unfold Legacy.scrape_parents.
    rewrite (anchor_loop_first _ Unbound e rest Hf).
    simpl read_local in *. unfold_bind.
    repeat match type of H with
           | match ?x with Ok _ => _ | Raise _ => _ end = Ok _ =>
               destruct x eqn:?; [|discriminate H]
           end.
    injection H as <-. do 2 eexists.
    split; [reflexivity|]. split; [eassumption|reflexivity]. }
  destruct Hp as (parents & rs & Hparents & Hm & ->).
  destruct (scrape_loop_agrees parents rs [] Hm) as (l' & Hl' & Hsame).
  simpl in Hl'.
  assert (Hr : Legacy.scrape_reviews bs4 html = Ok l').
  { unfold Legacy.scrape_reviews. rewrite Hparents. exact Hl'. }
  assert (Hs : Legacy.scrape bs4 html = Ok (Legacy.even_positions l')).
  { unfold Legacy.scrape. rewrite Hr. reflexivity. }
  pose proof (Forall2_length _ _ _ Hsame) as Hlen.
  exists l'. split; [exact Hr|]. split; [exact Hsame|]. split.
  - exists (Legacy.even_positions l'). split; [exact Hs|]. split.
    + intros i. apply even_positions_lookup.
    + rewrite even_positions_length, Hlen. reflexivity.
  - intros Hge Heq. rewrite Hs in Heq.
    assert (Hx : parse_reviews bs4 html = Ok (accepted rs)).
    { unfold parse_reviews. rewrite Hf. exact H. }
    rewrite Hx in Heq. injection Heq as Heq.
    pose proof (even_positions_length l') as Hk.
    rewrite Heq, <- Hlen in Hk.
    pose proof (div2_succ_lt _ Hge). lia.
Qed.

Lemma scrape_keeps_even_positions_witness :
  exists l',
    Legacy.scrape_reviews sample_bs4 page_two_reviews = Ok l'
    /\ Forall2 same_text
         [mkReview "Alice" "June 1, 2020" (Some "4") "Nice";
          mkReview "Bob" "June 3, 2020" (Some "2") "Slow"] l'
    /\ (exists kept, Legacy.scrape sample_bs4 page_two_reviews = Ok kept
          /\ (forall i, kept !! i = l' !! (2 * i)%nat)
          /\ length kept = 1%nat)
    /\ ((2 <= 2)%nat ->
        Legacy.scrape sample_bs4 page_two_reviews
        <> parse_reviews sample_bs4 page_two_reviews).
Proof.
  apply (scrape_keeps_even_positions sample_bs4 page_two_reviews
           [mkReview "Alice" "June 1, 2020" (Some "4") "Nice";
            mkReview "Bob" "June 3, 2020" (Some "2") "Slow"]).
  vm_compute. reflexivity.
Defined.

End ParserFacts.

(** * The click cache and the stabilizer *)
Module BrowserFacts.
Import Playscrape Selenium.
Local Open Scope list_scope.

Section WithSelenium.
Context `{!Selenium.api}.

(** ** Traces *)

Lemma clicks_app (t u : list event) :
  clicks (t ++ u) = (clicks t + clicks u)%nat.
Proof. unfold clicks. rewrite List.filter_app, length_app. reflexivity. Qed.

Lemma rounds_app (t u : list event) :
  rounds (t ++ u) = (rounds t + rounds u)%nat.
Proof. unfold rounds. rewrite List.filter_app, length_app. reflexivity. Qed.

Lemma clicking_rounds (t : list event) : Forall clicking t -> rounds t = 0%nat.
Proof.
  induction 1 as [|ev t Hev _ IH]; [reflexivity|].
  destruct ev; try contradiction; exact IH.
Qed.

Lemma clicking_not_warned (t : list event) : Forall clicking t -> ~ warned t.
Proof.
  intros Hall Hw. unfold warned in Hw.
  rewrite Forall_forall in Hall. exact (Hall _ Hw).
Qed.

(** ** One call of [_click_element] *)

Lemma click_element_hit (element : web_element) (w : world) (v : bool) :
  CACHE w !! str element = Some v -> _click_element element w = (v, w).
Proof. intros Hc. unfold _click_element, cached. rewrite Hc. reflexivity. Qed.

Lemma click_element_miss (element : web_element) (w : world) :
  CACHE w !! str element = None ->
  exists w',
    _click_element element w = (fst (click element (session w)), w')
    /\ CACHE w' = <[str element := fst (click element (session w))]> (CACHE w)
    /\ trace w'
       = trace w
         ++ Click (str element) (fst (click element (session w)))
            :: (if fst (click element (session w))
                then [Sleep SLEEP_TIME] else []).
Proof.
  intros Hc. unfold _click_element, cached. rewrite Hc.
  unfold _click_element_wrapped.
  destruct (click element (session w)) as [[|] d]; simpl;
    eexists; (split; [reflexivity|]); (split; [reflexivity|]).
  - unfold with_cache, sleep, emit, with_session. simpl.
    rewrite <- app_assoc. reflexivity.
  - reflexivity.
Qed.

(** After the call the key is in the cache, so the [del] of line 65
    finds it. *)
Lemma click_element_caches (element : web_element) (w : world) :
  CACHE (snd (_click_element element w)) !! str element
  = Some (fst (_click_element element w)).
Proof.
  destruct (CACHE w !! str element) as [v|] eqn:Hc.
  - rewrite (click_element_hit _ _ _ Hc). exact Hc.
  - destruct (click_element_miss _ _ Hc) as (w' & -> & Hcache & _).
    simpl. rewrite Hcache. apply lookup_insert_eq.
Qed.

(** ** One attempt: the call, and the eviction after a failure *)

Lemma attempt_hit_true (element : web_element) (w : world) :
  CACHE w !! str element = Some true -> attempt element w = (true, w).
Proof.
  intros Hc. unfold attempt. rewrite (click_element_hit _ _ _ Hc).
  reflexivity.
Qed.

Lemma attempt_miss (element : web_element) (w : world) :
  CACHE w !! str element = None ->
  exists w',
    attempt element w = (fst (click element (session w)), w')
    /\ CACHE w'
       = (if fst (click element (session w))
          then <[str element := true]> (CACHE w) else CACHE w)
    /\ trace w'
       = trace w
         ++ Click (str element) (fst (click element (session w)))
            :: (if fst (click element (session w))
                then [Sleep SLEEP_TIME] else []).
Proof.
  intros Hc. unfold attempt.
  destruct (click_element_miss _ _ Hc) as (w' & -> & Hcache & Htrace).
  destruct (fst (click element (session w))); simpl.
  - exists w'. repeat split; assumption.
  - eexists. split; [reflexivity|]. split; [|exact Htrace].
    simpl. rewrite Hcache, delete_insert_eq.
    apply delete_id. exact Hc.
Qed.

(** An entry of a click that worked is never evicted. *)
Lemma attempt_keeps_true (element : web_element) (w : world) (k : string) :
  CACHE w !! k = Some true ->
  CACHE (snd (attempt element w)) !! k = Some true.
Proof.
  intros Hk. destruct (decide (str element = k)) as [<-|Hne].
  - rewrite (attempt_hit_true _ _ Hk). exact Hk.
  - unfold attempt.
    destruct (CACHE w !! str element) as [v|] eqn:Hc.
    + rewrite (click_element_hit _ _ _ Hc).
      destruct v; simpl; [exact Hk|].
      rewrite lookup_delete_ne; assumption.
    + destruct (click_element_miss _ _ Hc) as (w' & -> & Hcache & _).
      destruct (fst (click element (session w))); simpl;
        rewrite ?lookup_delete_ne, Hcache, lookup_insert_ne; assumption.
Qed.

Lemma attempt_trace (element : web_element) (w : world) :
  exists added,
    trace (snd (attempt element w)) = trace w ++ added
    /\ Forall clicking added.
Proof.
  unfold attempt.
  destruct (CACHE w !! str element) as [v|] eqn:Hc.
  - rewrite (click_element_hit _ _ _ Hc). exists [].
    destruct v; simpl; rewrite app_nil_r; split; (reflexivity || constructor).
  - destruct (click_element_miss _ _ Hc) as (w' & -> & _ & Htrace).
    destruct (fst (click element (session w))); simpl;
      (eexists; split; [exact Htrace|repeat constructor]).
Qed.

(** C5.  Two attempts with the same key, of which the first is the first
    for its key and succeeds: the second returns [True] and changes
    nothing, and the two together call [element.click()] once.  The same
    holds for the two calls of [_click_element] inside them. *)
Theorem second_attempt_is_noop (e1 e2 : web_element) (w : world)
    (Hkey : str e1 = str e2)
    (Hfirst : CACHE w !! str e1 = None)
    (Hok : fst (attempt e1 w) = true) :
  attempt e2 (snd (attempt e1 w)) = (true, snd (attempt e1 w))
  /\ clicks (trace (snd (attempt e2 (snd (attempt e1 w)))))
     = S (clicks (trace w))
  /\ fst (_click_element e1 w) = true
  /\ _click_element e2 (snd (_click_element e1 w))
     = (true, snd (_click_element e1 w))
  /\ clicks (trace (snd (_click_element e2 (snd (_click_element e1 w)))))
     = S (clicks (trace w)).
Proof.
  destruct (attempt_miss _ _ Hfirst) as (w1 & Ha & Hcache & Htrace).
  rewrite Ha in Hok. simpl in Hok. rewrite Hok in *.
  assert (Hhit : CACHE w1 !! str e2 = Some true).
  { rewrite Hcache, <- Hkey. apply lookup_insert_eq. }
  assert (Hclicks : clicks (trace w1) = S (clicks (trace w))).
  { rewrite Htrace, clicks_app. unfold clicks. simpl. lia. }
  rewrite Ha. simpl snd.
  rewrite (attempt_hit_true _ _ Hhit). simpl snd.
  split; [reflexivity|]. split; [exact Hclicks|].
  destruct (click_element_miss _ _ Hfirst) as (w1' & Hc & Hcache' & Htrace').
  rewrite Hok in *. rewrite Hc. simpl.
  assert (Hhit' : CACHE w1' !! str e2 = Some true).
  { rewrite Hcache', <- Hkey. apply lookup_insert_eq. }
  rewrite (click_element_hit _ _ _ Hhit'). simpl.
  split; [reflexivity|]. split; [reflexivity|].
  rewrite Htrace', clicks_app. unfold clicks. simpl. lia.
Qed.

(** C6.  An attempt whose click fails returns [False] and leaves the key
    out of the cache, and the next attempt with the same key calls
    [element.click()] again. *)
Theorem failed_attempt_is_retried (e e' : web_element) (w : world)
    (Hfirst : CACHE w !! str e = None)
    (Hfail : fst (click e (session w)) = false)
    (Hkey : str e' = str e) :
  fst (attempt e w) = false
  /\ CACHE (snd (attempt e w)) !! str e = None
  /\ clicks (trace (snd (attempt e w))) = S (clicks (trace w))
  /\ exists ok,
       trace (snd (attempt e' (snd (attempt e w))))
       = trace (snd (attempt e w))
         ++ Click (str e) ok :: (if ok then [Sleep SLEEP_TIME] else []).
Proof.
  destruct (attempt_miss _ _ Hfirst) as (w1 & Ha & Hcache & Htrace).
  rewrite Hfail in *. rewrite Ha. simpl.
  assert (Hmiss : CACHE w1 !! str e' = None).
  { rewrite Hcache, Hkey. exact Hfirst. }
  split; [reflexivity|]. split; [rewrite Hcache; exact Hfirst|]. split.
  - rewrite Htrace, clicks_app. unfold clicks. simpl. lia.
  - destruct (attempt_miss _ _ Hmiss) as (w2 & Ha2 & _ & Htrace2).
    rewrite Ha2. simpl. rewrite Hkey in Htrace2. eauto.
Qed.


(** ** Rounds of the stabilizer *)

Lemma extends_clicking_compose (f g : world -> world) :
  extends_clicking f -> extends_clicking g ->
  extends_clicking (fun w => g (f w)).
Proof.
  intros Hf Hg w. destruct (Hf w) as (a & Ha & Hca).
  destruct (Hg (f w)) as (b & Hb & Hcb).
  exists (a ++ b). rewrite Hb, Ha, app_assoc. split; [reflexivity|].
  apply Forall_app. split; assumption.
Qed.

Lemma extends_clicking_iter (f : world -> world) (n : nat) :
  extends_clicking f -> extends_clicking (Nat.iter n f).
Proof.
  intros Hf. induction n as [|n IH]; intros w.
  - exists []. simpl. rewrite app_nil_r. split; [reflexivity|constructor].
  - simpl. apply (extends_clicking_compose (Nat.iter n f) f IH Hf).
Qed.

Lemma click_elements_trace (element_type text : string) :
  extends_clicking (click_elements element_type text).
Proof.
  intros w. unfold click_elements.
  generalize (find_elements (session w) (xpath element_type text)).
  intros els. revert w. induction els as [|el els IH]; intros w.
  - exists []. simpl. rewrite app_nil_r. split; [reflexivity|constructor].
  - simpl. destruct (attempt_trace el w) as (a & Ha & Hca).
    destruct (IH (snd (attempt el w))) as (b & Hb & Hcb).
    exists (a ++ b). rewrite Hb, Ha, app_assoc. split; [reflexivity|].
    apply Forall_app. split; assumption.
Qed.

Lemma round_trace (ipage : Z) (w : world) :
  exists added,
    trace (round ipage w) = trace w ++ added
    /\ rounds added = 1%nat /\ ~ warned added.
Proof.
  unfold round, expand_page.
  set (w1 := emit (Secho (OnReviewPage ipage)) w).
  destruct (extends_clicking_iter
              (fun w => click_elements "span" "Show More"
                          (click_elements "button" "Full Review" w))
              TENACITY
              (extends_clicking_compose _ _
                 (click_elements_trace "button" "Full Review")
                 (click_elements_trace "span" "Show More")) w1)
    as (a & Ha & Hca).
  exists ([Secho (OnReviewPage ipage)] ++ a
          ++ [SendKeysEnd; Sleep SLEEP_TIME]).
  split; [|split].
  - unfold sleep, emit, with_session. cbn [trace session CACHE].
    rewrite Ha. unfold w1, emit. cbn [trace session CACHE].
    rewrite <- !app_assoc. reflexivity.
  - rewrite !rounds_app, (clicking_rounds a Hca). reflexivity.
  - unfold warned. rewrite !elem_of_app.
    intros [Hw|[Hw|Hw]].
    + apply list_elem_of_singleton in Hw. discriminate.
    + exact (clicking_not_warned a Hca Hw).
    + apply elem_of_cons in Hw as [Hw|Hw]; [discriminate|].
      apply list_elem_of_singleton in Hw. discriminate.
Qed.

Lemma after_rounds_trace (k : nat) (w : world) :
  exists added,
    trace (after_rounds k w) = trace w ++ added
    /\ rounds added = k /\ ~ warned added.
Proof.
  induction k as [|k (a & Ha & Hra & Hwa)].
  - exists []. simpl. rewrite app_nil_r.
    split; [reflexivity|]. split; [reflexivity|]. intros Hw. inversion Hw.
  - cbn [after_rounds].
    destruct (round_trace (Z.of_nat k) (after_rounds k w))
      as (b & Hb & Hrb & Hwb).
    exists (a ++ b). rewrite Hb, Ha, app_assoc. split; [reflexivity|].
    split.
    + rewrite rounds_app, Hra, Hrb. lia.
    + unfold warned. rewrite elem_of_app. intros [Hw|Hw]; auto.
Qed.

(** The loop from iteration [s] on, [m] iterations being left. *)
Lemma expand_loop_exhausted (m s : nat) (w : world) :
  (forall j, (s <= j < s + m)%nat -> changed j w) ->
  expand_loop (map Z.of_nat (seq s m)) (after_rounds s w)
  = (false, after_rounds (s + m) w).
Proof.
  revert s. induction m as [|m IH]; intros s Hch.
  - simpl. rewrite Nat.add_0_r. reflexivity.
  - simpl map. cbn [expand_loop].
    change (expand_page (emit (Secho (OnReviewPage (Z.of_nat s)))
                           (after_rounds s w)))
      with (after_rounds (S s) w).
    change (html_length (emit (Secho (OnReviewPage (Z.of_nat s)))
                           (after_rounds s w)))
      with (html_length (after_rounds s w)).
    destruct (Nat.eqb_spec (html_length (after_rounds (S s) w))
                           (html_length (after_rounds s w))) as [E|_].
    + exfalso. apply (Hch s); [lia|exact E].
    + rewrite IH.
      * replace (S s + m)%nat with (s + S m)%nat by lia. reflexivity.
      * intros j Hj. apply Hch. lia.
Qed.

Lemma expand_loop_converged (m s k : nat) (w : world) :
  (s <= k < s + m)%nat ->
  (forall j, (s <= j < k)%nat -> changed j w) ->
  ~ changed k w ->
  expand_loop (map Z.of_nat (seq s m)) (after_rounds s w)
  = (true, after_rounds (S k) w).
Proof.
  revert s. induction m as [|m IH]; intros s Hk Hch Hst; [lia|].
  simpl map. cbn [expand_loop].
  change (expand_page (emit (Secho (OnReviewPage (Z.of_nat s)))
                         (after_rounds s w)))
    with (after_rounds (S s) w).
  change (html_length (emit (Secho (OnReviewPage (Z.of_nat s)))
                         (after_rounds s w)))
    with (html_length (after_rounds s w)).
  destruct (Nat.eqb_spec (html_length (after_rounds (S s) w))
                         (html_length (after_rounds s w))) as [E|Hne].
  - destruct (decide (k = s)) as [->|Hks]; [reflexivity|].
    exfalso. apply (Hch s); [lia|exact E].
  - destruct (decide (k = s)) as [->|Hks].
    + exfalso. apply Hst. exact Hne.
    + apply IH; [lia| |exact Hst]. intros j Hj. apply Hch. lia.
Qed.

(** C3.  With a budget of [max_scrolls] rounds: when round [k + 1] is
    the first that leaves the length of the page unchanged, and it is
    within the budget, [expand_reviews] performs [k + 1] rounds and prints
    no warning; when every round of the budget changes the length, it
    performs them all and prints the warning. *)
Theorem stabilizer_rounds (max_scrolls : Z) (w : world) :
  (forall k : nat,
      (k < Z.to_nat max_scrolls)%nat ->
      (forall j, (j < k)%nat -> changed j w) ->
      ~ changed k w ->
      expand_reviews max_scrolls w = after_rounds (S k) w
      /\ exists added,
           trace (expand_reviews max_scrolls w) = trace w ++ added
           /\ rounds added = S k /\ ~ warned added)
  /\ ((forall j, (j < Z.to_nat max_scrolls)%nat -> changed j w) ->
      expand_reviews max_scrolls w
      = emit (Secho IncreaseMaxScrolls)
             (after_rounds (Z.to_nat max_scrolls) w)
      /\ exists added,
           trace (expand_reviews max_scrolls w) = trace w ++ added
           /\ rounds added = Z.to_nat max_scrolls /\ warned added).
Proof.
  split.
  - intros k Hk Hch Hst.
    assert (E : expand_reviews max_scrolls w = after_rounds (S k) w).
    { unfold expand_reviews, range.
      change w with (after_rounds 0 w) at 1.
      rewrite (expand_loop_converged _ 0 k w); [reflexivity|lia| |exact Hst].
      intros j Hj. apply Hch. lia. }
    split; [exact E|]. rewrite E. apply after_rounds_trace.
  - intros Hch.
    assert (E : expand_reviews max_scrolls w
                = emit (Secho IncreaseMaxScrolls)
                       (after_rounds (Z.to_nat max_scrolls) w)).
    { unfold expand_reviews, range.
      change w with (after_rounds 0 w) at 1.
      rewrite (expand_loop_exhausted _ 0 w); [reflexivity|].
      intros j Hj. apply Hch. lia. }
    split; [exact E|]. rewrite E.
    destruct (after_rounds_trace (Z.to_nat max_scrolls) w)
      as (a & Ha & Hra & _).
    exists (a ++ [Secho IncreaseMaxScrolls]).
    unfold emit. simpl. rewrite Ha, app_assoc.
    split; [reflexivity|]. split.
    + rewrite rounds_app, Hra. unfold rounds. simpl. lia.
    + unfold warned. apply elem_of_app. right.
      apply list_elem_of_singleton. reflexivity.
Qed.

(** ** The cache across sessions *)

Lemma keeps_true_compose (f g : world -> world) :
  keeps_true f -> keeps_true g -> keeps_true (fun w => g (f w)).
Proof. intros Hf Hg w k Hk. apply Hg, Hf, Hk. Qed.

Lemma keeps_true_iter (f : world -> world) (n : nat) :
  keeps_true f -> keeps_true (Nat.iter n f).
Proof.
  intros Hf. induction n as [|n IH]; intros w k Hk; [exact Hk|].
  simpl. apply Hf, IH, Hk.
Qed.

Lemma click_elements_keeps_true (element_type text : string) :
  keeps_true (click_elements element_type text).
Proof.
  intros w k. unfold click_elements.
  generalize (find_elements (session w) (xpath element_type text)).
  intros els. revert w. induction els as [|el els IH]; intros w Hk.
  - exact Hk.
  - simpl. apply IH, attempt_keeps_true, Hk.
Qed.

Lemma expand_page_keeps_true : keeps_true expand_page.
Proof.
  intros w k Hk. unfold expand_page, sleep, emit, with_session.
  cbn [trace session CACHE].
  apply (keeps_true_iter
           (fun w => click_elements "span" "Show More"
                       (click_elements "button" "Full Review" w))
           TENACITY); [|exact Hk].
  apply keeps_true_compose; apply click_elements_keeps_true.
Qed.

Lemma expand_loop_keeps_true (pages : list Z) (w : world) (k : string) :
  CACHE w !! k = Some true ->
  CACHE (snd (expand_loop pages w)) !! k = Some true.
Proof.
  revert w. induction pages as [|p pages IH]; intros w Hk; [exact Hk|].
  cbn [expand_loop].
  assert (Hk' : CACHE (expand_page (emit (Secho (OnReviewPage p)) w)) !! k
                = Some true)
    by (apply expand_page_keeps_true; exact Hk).
  destruct (_ =? _)%nat; [exact Hk'|]. apply IH, Hk'.
Qed.

Lemma expand_reviews_keeps_true (max_scrolls : Z) :
  keeps_true (expand_reviews max_scrolls).
Proof.
  intros w k Hk. unfold expand_reviews.
  pose proof (expand_loop_keeps_true (range max_scrolls) w k Hk) as Hl.
  destruct (expand_loop (range max_scrolls) w) as [[|] w']; exact Hl.
Qed.

(** Every crawl closes its session. *)
Lemma crawl_closes (bs4 : Bs4.library) (driver_location app_id : string)
    (max_scrolls : Z) (w : world) :
  CloseBrowser
    ∈ trace (snd (expand_and_parse_reviews bs4 driver_location app_id
                    max_scrolls w)).
Proof.
  unfold expand_and_parse_reviews, close_browser, emit.
  cbn [snd trace]. rewrite !elem_of_app. left. left. right.
  apply list_elem_of_singleton. reflexivity.
Qed.

(** C8, amended.  The cache is a dictionary of the module and lives as
    long as the process: [driver.close()] leaves it as the last round of
    the session left it, and an entry of a successful click, present
    before a crawl or recorded in it, is still there after the session
    has closed and after every later crawl of the batch. *)
Theorem cache_outlives_session (bs4 : Bs4.library)
    (driver_location app_id : string) (max_scrolls : Z) (w : world)
    (k : string)
    (Hk : CACHE w !! k = Some true) :
  CACHE (snd (expand_and_parse_reviews bs4 driver_location app_id
                max_scrolls w))
  = CACHE (expand_reviews max_scrolls
             (open_browser driver_location (PLAY_URL app_id) w))
  /\ CloseBrowser
       ∈ trace (snd (expand_and_parse_reviews bs4 driver_location app_id
                       max_scrolls w))
  /\ CACHE (snd (expand_and_parse_reviews bs4 driver_location app_id
                   max_scrolls w)) !! k = Some true
  /\ forall app_ids,
       CACHE (snd (playscrape bs4 driver_location app_ids max_scrolls w))
         !! k = Some true.
Proof.
  assert (Hcrawl : forall app w,
             CACHE w !! k = Some true ->
             CACHE (snd (expand_and_parse_reviews bs4 driver_location app
                           max_scrolls w)) !! k = Some true).
  { intros app w0 H0. unfold expand_and_parse_reviews. simpl.
    apply expand_reviews_keeps_true. exact H0. }
  split; [reflexivity|]. split; [|split].
  - apply crawl_closes.
  - apply Hcrawl, Hk.
  - intros app_ids. revert w Hk.
    induction app_ids as [|app app_ids IH]; intros w Hk; [exact Hk|].
    cbn [playscrape].
    pose proof (Hcrawl app (emit (Secho (Processing app)) w) Hk) as Hc.
    destruct (expand_and_parse_reviews bs4 driver_location app
                max_scrolls (emit (Secho (Processing app)) w))
      as [[reviews|e] w'].
    + apply IH. exact Hc.
    + exact Hc.
Qed.

End WithSelenium.

(** ** The sample browser *)
Section Sample.
Import Fixtures.
#[local] Existing Instance sample_selenium.

Lemma second_attempt_is_noop_witness :
  attempt button_1 (snd (attempt button_1 fresh))
    = (true, snd (attempt button_1 fresh))
  /\ clicks (trace (snd (attempt button_1
                           (snd (attempt button_1 fresh)))))
     = S (clicks (trace fresh))
  /\ fst (_click_element button_1 fresh) = true
  /\ _click_element button_1 (snd (_click_element button_1 fresh))
     = (true, snd (_click_element button_1 fresh))
  /\ clicks (trace (snd (_click_element button_1
                           (snd (_click_element button_1 fresh)))))
     = S (clicks (trace fresh)).
Proof.
  apply (second_attempt_is_noop button_1 button_1 fresh);
    vm_compute; reflexivity.
Defined.

Lemma failed_attempt_is_retried_witness :
  fst (attempt covered fresh) = false
  /\ CACHE (snd (attempt covered fresh)) !! "covered" = None
  /\ clicks (trace (snd (attempt covered fresh)))
     = S (clicks (trace fresh))
  /\ exists ok,
       trace (snd (attempt covered (snd (attempt covered fresh))))
       = trace (snd (attempt covered fresh))
         ++ Click "covered" ok :: (if ok then [Sleep SLEEP_TIME] else []).
Proof.
  apply (failed_attempt_is_retried covered covered fresh);
    vm_compute; reflexivity.
Defined.

(** A budget of ten rounds, of which the fourth leaves the page as it
    was; and a budget of two rounds, both of which make it grow. *)
Lemma stabilizer_rounds_witness :
  (expand_reviews 10 fresh = after_rounds 4 fresh
   /\ exists added,
        trace (expand_reviews 10 fresh) = trace fresh ++ added
        /\ rounds added = 4%nat /\ ~ warned added)
  /\ (expand_reviews 2 fresh
      = emit (Secho IncreaseMaxScrolls) (after_rounds 2 fresh)
      /\ exists added,
           trace (expand_reviews 2 fresh) = trace fresh ++ added
           /\ rounds added = 2%nat /\ warned added).
Proof.
  split.
  - apply (proj1 (stabilizer_rounds 10 fresh) 3%nat).
    + vm_compute. lia.
    + intros j Hj. destruct j as [|[|[|j]]]; [| | |lia];
        vm_compute; discriminate.
    + vm_compute. intros Hne. apply Hne. reflexivity.
  - apply (proj2 (stabilizer_rounds 2 fresh)).
    intros j Hj. assert (Hj' : (j < 2)%nat) by exact Hj.
    destruct j as [|[|j]]; [| |lia]; vm_compute; discriminate.
Defined.

(** C8, as stated, fails: the session of the first crawl is closed, and
    the entry recorded in it is still in the cache. *)
Lemma cache_not_discarded_counterexample :
  CloseBrowser ∈ trace after_first_crawl
  /\ ~ (forall k, CACHE fresh !! k = None ->
                  CACHE after_first_crawl !! k = None).
Proof.
  split; [apply crawl_closes|].
  intros Hall. specialize (Hall "button-1" eq_refl).
  vm_compute in Hall. discriminate.
Qed.

Lemma cache_outlives_session_witness :
  CACHE (snd (expand_and_parse_reviews sample_bs4 "chromedriver" "app.two"
                10 after_first_crawl))
  = CACHE (expand_reviews 10
             (open_browser "chromedriver" (PLAY_URL "app.two")
                after_first_crawl))
  /\ CloseBrowser
       ∈ trace (snd (expand_and_parse_reviews sample_bs4 "chromedriver"
                       "app.two" 10 after_first_crawl))
  /\ CACHE (snd (expand_and_parse_reviews sample_bs4 "chromedriver"
                   "app.two" 10 after_first_crawl)) !! "button-1"
     = Some true
  /\ forall app_ids,
       CACHE (snd (playscrape sample_bs4 "chromedriver" app_ids 10
                     after_first_crawl)) !! "button-1" = Some true.
Proof.
  apply (cache_outlives_session sample_bs4 "chromedriver" "app.two" 10
           after_first_crawl "button-1").
  vm_compute. reflexivity.
Defined.
End Sample.

End BrowserFacts.

(** * More on the extractor *)
Module ExtractorMore.
Import Playscrape Fixtures ExtractorFacts.
Local Open Scope list_scope.

Lemma substring_one_length (n : nat) (s : string) :
  (n < String.length s)%nat -> String.length (substring n 1 s) = 1%nat.
Proof.
  revert s. induction n as [|n IH]; intros [|c s]; simpl; try lia.
  - intros _. destruct s; reflexivity.
  - intros H. apply IH. lia.
Qed.

Lemma get_rating_length (el : node) (r : string) :
  get_rating el = Some r -> String.length r = 1%nat.
Proof.
  unfold get_rating.
  destruct (get_aria_label el) as [label|]; [|discriminate].
  destruct (endswith label "stars out of five stars"); [|discriminate].
  destruct (String.length label =? 31)%nat eqn:Hn; [|discriminate].
  apply Nat.eqb_eq in Hn. intros [= <-].
  apply substring_one_length. lia.
Qed.



Lemma filter_bool_source (vs : list (option string)) (s : string) :
  s ∈ filter_bool vs -> Some s ∈ vs.
Proof.
  induction vs as [|[v|] vs IH]; simpl.
  - intros H. inversion H.
  - destruct (String.eqb v ""); simpl.
    + intros H. apply elem_of_cons. right. exact (IH H).
    + intros H. apply elem_of_cons in H as [->|H].
      * apply elem_of_cons. left. reflexivity.
      * apply elem_of_cons. right. exact (IH H).
  - intros H. apply elem_of_cons. right. exact (IH H).
Qed.

(** X2.  A record that [extract_review] emits always has a rating: the one
    character that [get_rating] reads from the first descendant of the
    candidate that carries a rating label. *)
Theorem emitted_rating_is_present (c : node) (rec : review)
    (H : extract_review c = Ok (Some rec)) :
  exists r el,
    rating rec = Some r
    /\ String.length r = 1%nat
    /\ first_rating (findChildren c) = Bound r
    /\ el ∈ findChildren c /\ get_rating el = Some r.
Proof.
  destruct (collect_parts (findChildren c)) as [|p ps] eqn:Hparts.
  { unfold extract_review in H. rewrite Hparts in H. discriminate. }
  assert (Hne : collect_parts (findChildren c) <> [])
    by (rewrite Hparts; done).
  destruct (truncate_reply_ok _ Hne) as [l Ht].
  rewrite (extract_review_cases c l Hne Ht) in H.
  destruct l as [|a [|d rest]]; try discriminate.
  destruct (is_date d); [|discriminate].
  destruct (first_rating (findChildren c)) as [|r] eqn:Hr; [discriminate|].
  injection H as <-. simpl.
  unfold first_rating in Hr.
  destruct (filter_bool (map get_rating (findChildren c))) as [|r' rs] eqn:Hf;
    [discriminate|].
  injection Hr as ->.
  assert (Hin : Some r ∈ map get_rating (findChildren c)).
  { apply filter_bool_source. rewrite Hf. apply elem_of_cons. left.
    reflexivity. }
  apply list_elem_of_fmap in Hin as (el & Hel & Hin).
  exists r, el. split; [reflexivity|]. split.
  - apply (get_rating_length el r). symmetry. exact Hel.
  - split; [reflexivity|]. split; [exact Hin|]. symmetry. exact Hel.
Qed.

Lemma emitted_rating_is_present_witness :
  exists r el,
    rating (mkReview "Alice" "June 1, 2020" (Some "4") "Nice") = Some r
    /\ String.length r = 1%nat
    /\ first_rating (findChildren card_alice) = Bound r
    /\ el ∈ findChildren card_alice /\ get_rating el = Some r.
Proof.
  apply (emitted_rating_is_present card_alice
           (mkReview "Alice" "June 1, 2020" (Some "4") "Nice")).
  vm_compute. reflexivity.
Defined.

Lemma collect_parts_none (els : list node) :
  (forall el, el ∈ els -> findChildren el <> [] \/ text el = "") ->
  collect_parts els = [].
Proof.
  induction els as [|el els IH]; intros H; [reflexivity|].
  unfold collect_parts in *. simpl map. unfold get_element_text at 1.
  assert (Hel : findChildren el <> [] \/ text el = "").
  { apply H. apply elem_of_cons. left. reflexivity. }
  assert (Hrest : filter_bool (map get_element_text els) = []).
  { apply IH. intros x Hx. apply H. apply elem_of_cons. right. exact Hx. }
  destruct (findChildren el) as [|x xs] eqn:Hc; simpl.
  - destruct Hel as [Hel|Hel]; [done|]. rewrite Hel. simpl. exact Hrest.
  - exact Hrest.
Qed.

(** X3.  A candidate in which every descendant tag either has child tags
    or has no text is rejected, whether or not it carries a rating: text
    that lies in the candidate itself, outside every child tag, does not
    count. *)
Theorem candidate_without_leaf_text_is_rejected (c : node)
    (H : forall el, el ∈ findChildren c ->
                    findChildren el <> [] \/ text el = "") :
  extract_review c = Ok None.
Proof.
  unfold extract_review. rewrite (collect_parts_none _ H). reflexivity.
Qed.

Lemma candidate_without_leaf_text_is_rejected_witness :
  extract_review (Tag "div" None (Some ["rv"]) [NavigableString "Alice"])
  = Ok None.
Proof.
  apply candidate_without_leaf_text_is_rejected.
  intros el Hel. simpl in Hel. inversion Hel.
Defined.

(** X4.  A candidate whose second value, after the truncation of a reply,
    is not a date is rejected, whatever its first value is and whether or
    not it carries a rating. *)
Theorem second_value_must_be_date (c : node) (a d : string)
    (rest : list string)
    (Ht : truncate_reply (collect_parts (findChildren c))
          = Ok (a :: d :: rest))
    (Hd : is_date d = false) :
  extract_review c = Ok None.
Proof.
  assert (Hne : collect_parts (findChildren c) <> []).
  { intros E. rewrite E in Ht. discriminate. }
  rewrite (extract_review_cases c _ Hne Ht), Hd. reflexivity.
Qed.

Lemma second_value_must_be_date_witness :
  extract_review card_bad_date = Ok None.
Proof.
  apply (second_value_must_be_date card_bad_date "Alice" "Nov 23, 1234"
           ["Nice"]); vm_compute; reflexivity.
Defined.

Lemma drop_last_two_app {A} (l : list A) (x y : A) :
  drop_last_two (l ++ [x; y]) = l.
Proof.
  unfold drop_last_two. rewrite length_app. simpl length.
  replace (length l + 2 - 2)%nat with (length l) by lia.
  apply take_app_length.
Qed.

Lemma last_item_snoc {A} (l : list A) (x : A) : last_item (l ++ [x]) = Ok x.
Proof. unfold last_item. rewrite last_snoc. reflexivity. Qed.

(** X5.  When the values of a candidate end with a reply author and a
    valid reply date, neither reaches the record: the record holds the first
    two values and, as its text, the last value before the reply, or the
    empty text if there is none. *)
Theorem reply_never_reaches_record (c : node) (a d r rd s : string)
    (mid : list string)
    (Hparts : collect_parts (findChildren c) = a :: d :: mid ++ [r; rd])
    (Hreply : is_date rd = true)
    (Hdate : is_date d = true)
    (Hrating : first_rating (findChildren c) = Bound s) :
  extract_review c
  = Ok (Some (mkReview a d (Some s) (default "" (last mid)))).
Proof.
  assert (Ht : truncate_reply (collect_parts (findChildren c))
               = Ok (a :: d :: mid)).
  { rewrite Hparts. unfold truncate_reply.
    change (a :: d :: mid ++ [r; rd]) with ((a :: d :: mid) ++ [r; rd]).
    replace ((a :: d :: mid) ++ [r; rd])
      with (((a :: d :: mid) ++ [r]) ++ [rd])
      by (rewrite <- app_assoc; reflexivity).
    rewrite last_item_snoc. unfold_bind. rewrite Hreply.
    rewrite <- app_assoc. simpl app at 2.
    rewrite (drop_last_two_app (a :: d :: mid) r rd). reflexivity. }
  assert (Hne : collect_parts (findChildren c) <> [])
    by (rewrite Hparts; done).
  rewrite (extract_review_cases c _ Hne Ht), Hdate, Hrating. reflexivity.
Qed.

Lemma reply_never_reaches_record_witness :
  extract_review
    (card [four_stars; leaf "Alice"; leaf "June 1, 2020"; leaf "Nice";
           leaf "Dev"; leaf "June 2, 2020"])
  = Ok (Some (mkReview "Alice" "June 1, 2020" (Some "4") "Nice")).
Proof.
  apply (reply_never_reaches_record _ "Alice" "June 1, 2020" "Dev"
           "June 2, 2020" "4" ["Nice"]); vm_compute; reflexivity.
Defined.

(** X6.  When the last value of a candidate is not a date, nothing is
    truncated and the last value is the text of the record, whatever lies
    between it and the date: a reply that ends with its own text takes the
    place of the review text. *)
Theorem last_value_is_the_text (c : node) (a d x s : string)
    (mid : list string)
    (Hparts : collect_parts (findChildren c) = a :: d :: mid ++ [x])
    (Hlast : is_date x = false)
    (Hdate : is_date d = true)
    (Hrating : first_rating (findChildren c) = Bound s) :
  extract_review c = Ok (Some (mkReview a d (Some s) x)).
Proof.
  assert (Ht : truncate_reply (collect_parts (findChildren c))
               = Ok (a :: d :: mid ++ [x])).
  { rewrite Hparts. unfold truncate_reply.
    change (a :: d :: mid ++ [x]) with ((a :: d :: mid) ++ [x]).
    rewrite last_item_snoc. unfold_bind. rewrite Hlast. reflexivity. }
  assert (Hne : collect_parts (findChildren c) <> [])
    by (rewrite Hparts; done).
  rewrite (extract_review_cases c _ Hne Ht), Hdate, Hrating.
  rewrite last_snoc. reflexivity.
Qed.

Lemma last_value_is_the_text_witness :
  extract_review
    (card [four_stars; leaf "Alice"; leaf "June 1, 2020"; leaf "Nice";
           leaf "Dev"; leaf "June 2, 2020"; leaf "Thank you"])
  = Ok (Some (mkReview "Alice" "June 1, 2020" (Some "4") "Thank you")).
Proof.
  apply (last_value_is_the_text _ "Alice" "June 1, 2020" "Thank you" "4"
           ["Nice"; "Dev"; "June 2, 2020"]); vm_compute; reflexivity.
Defined.

(** X7.  [extract_review] raises in two cases and in no other: with
    [IndexError] when one value is left after the truncation, and with
    [UnboundLocalError] when at least two are left, the second is a date and
    no descendant carries a rating. *)
Theorem extract_review_raises_iff (c : node) (e : exn) :
  extract_review c = Raise e
  <-> exists l,
        truncate_reply (collect_parts (findChildren c)) = Ok l
        /\ ((e = IndexError /\ exists a, l = [a])
            \/ (e = UnboundLocalError
                /\ first_rating (findChildren c) = Unbound
                /\ exists a d rest,
                     l = a :: d :: rest /\ is_date d = true)).
Proof.
  destruct (collect_parts (findChildren c)) as [|p ps] eqn:Hparts.
  { split.
    - unfold extract_review. rewrite Hparts. discriminate.
    - intros (l & Ht & _). discriminate. }
  assert (Hne : collect_parts (findChildren c) <> [])
    by (rewrite Hparts; done).
  destruct (truncate_reply_ok _ Hne) as [l Ht].
  rewrite (extract_review_cases c l Hne Ht). rewrite Hparts in Ht.
  split.
  - intros H. exists l. split; [exact Ht|].
    destruct l as [|a [|d rest]]; try discriminate.
    + injection H as <-. left. eauto.
    + destruct (is_date d) eqn:Hd; [|discriminate].
      destruct (first_rating (findChildren c)); [|discriminate].
      injection H as <-. right. eauto 10.
  - intros (l' & Ht' & Hcases). rewrite Ht in Ht'. injection Ht' as <-.
    destruct Hcases as [[-> [a ->]]|(-> & Hr & a & d & rest & -> & Hd)].
    + reflexivity.
    + rewrite Hd, Hr. reflexivity.
Qed.

End ExtractorMore.

(** * More on the two parsers *)
Module SnapshotFacts.
Import Playscrape Fixtures MoreFixtures ExtractorFacts ParserFacts.
Local Open Scope list_scope.

(** [parse_reviews] is [extract_review] over the containers of the
    snapshot, in document order. *)
Lemma parse_reviews_containers (bs4 : Bs4.library) (html : string) :
  parse_reviews bs4 html
  = (cs ← Snapshot.review_containers bs4 html;
     rs ← mapM (fun e : element => extract_review (fst e)) cs;
     mret (accepted rs)).
Proof.
  unfold parse_reviews, Snapshot.review_containers. unfold_bind.
  repeat match goal with
         | |- match ?x with Ok _ => _ | Raise _ => _ end = _ =>
             destruct x; [|reflexivity]
         end.
  reflexivity.
Qed.

Lemma mapM_first_failure {A B} (f : A -> result B) (pre post : list A)
    (c : A) (e : exn) :
  Forall (fun x => exists o, f x = Ok o) pre ->
  f c = Raise e ->
  mapM f (pre ++ c :: post) = Raise e.
Proof.
  intros Hpre Hc. induction Hpre as [|x pre [o Ho] _ IH]; simpl.
  - unfold_bind. rewrite Hc. reflexivity.
  - unfold_bind. rewrite Ho, IH. reflexivity.
Qed.

(** X8.  One candidate that makes [extract_review] raise ends
    [parse_reviews] with that exception: the records of the candidates
    before it are lost and the candidates after it are never looked at. *)
Theorem failing_candidate_ends_parse (bs4 : Bs4.library) (html : string)
    (pre post : list element) (c : element) (e : exn)
    (Hcs : Snapshot.review_containers bs4 html = Ok (pre ++ c :: post))
    (Hpre : Forall (fun x : element =>
                      exists o, extract_review (fst x) = Ok o) pre)
    (Hc : extract_review (fst c) = Raise e) :
  parse_reviews bs4 html = Raise e.
Proof.
  pose proof (mapM_first_failure
                (fun x : element => extract_review (fst x)) pre post c e
                Hpre Hc) as Hm.
  rewrite parse_reviews_containers, Hcs. unfold_bind. rewrite Hm.
  reflexivity.
Qed.

Lemma failing_candidate_ends_parse_witness :
  parse_reviews more_bs4 broken_page = Raise IndexError.
Proof.
  pose (soup := BeautifulSoup [card_alice; card_three_leaves; card_bob]).
  apply (failing_candidate_ends_parse more_bs4 broken_page
           [(card_alice, [soup])] [(card_bob, [soup])]
           (card_three_leaves, [soup]) IndexError).
  - vm_compute. reflexivity.
  - constructor; [|constructor]. eexists. vm_compute. reflexivity.
  - vm_compute. reflexivity.
Defined.

(** X9.  Line 171 climbs six levels from the first rating anchor.  With
    fewer than five ancestors, the document counted as one, it raises
    [AttributeError]; with five it raises [TypeError]; and when the sixth
    ancestor has no [class] attribute it raises [KeyError]. *)
Theorem anchor_depth_errors (bs4 : Bs4.library) (html : string)
    (n : node) (anc : list node) (rest : list element)
    (Hf : filter (fun e : element => truthy (get_rating (fst e)) = true)
                 (find_all (BeautifulSoup (html_parser bs4 html)) "div")
          = (n, anc) :: rest) :
  ((length anc < 5)%nat -> parse_reviews bs4 html = Raise AttributeError)
  /\ (length anc = 5%nat -> parse_reviews bs4 html = Raise TypeError)
  /\ (forall p, anc !! 5%nat = Some p -> get_class p = None ->
                parse_reviews bs4 html = Raise KeyError).
Proof.
  unfold parse_reviews. rewrite Hf. simpl read_local. unfold_bind.
  split; [|split].
  - intros Hl.
    destruct anc as [|p1 [|p2 [|p3 [|p4 [|p5 anc]]]]]; simpl in *;
      try reflexivity; lia.
  - intros Hl.
    destruct anc as [|p1 [|p2 [|p3 [|p4 [|p5 [|p6 anc]]]]]]; simpl in *;
      try discriminate. reflexivity.
  - intros p Hp Hclass.
    destruct anc as [|p1 [|p2 [|p3 [|p4 [|p5 [|p6 anc]]]]]]; simpl in Hp;
      try discriminate.
    injection Hp as ->. simpl.
    destruct p as [| |nm a cls cs]; try reflexivity.
    simpl in Hclass. rewrite Hclass. reflexivity.
Qed.

Lemma anchor_depth_errors_witness :
  parse_reviews more_bs4 shallow_page = Raise AttributeError
  /\ parse_reviews more_bs4 level_page = Raise TypeError
  /\ parse_reviews more_bs4 headless_page = Raise KeyError.
Proof.
  pose (label := "Rated 4 stars out of five stars").
  pose (wrapped := fun k => shallow_stars k label).
  split; [|split].
  - apply (proj1 (anchor_depth_errors more_bs4 shallow_page (wrapped 0%nat)
                    [wrapped 1%nat; wrapped 2%nat; wrapped 3%nat;
                     BeautifulSoup [wrapped 3%nat]] []
                    ltac:(vm_compute; reflexivity))).
    simpl. lia.
  - apply (proj1 (proj2 (anchor_depth_errors more_bs4 level_page
                           (wrapped 0%nat)
                           [wrapped 1%nat; wrapped 2%nat; wrapped 3%nat;
                            wrapped 4%nat; BeautifulSoup [wrapped 4%nat]] []
                           ltac:(vm_compute; reflexivity)))).
    reflexivity.
  - apply (proj2 (proj2 (anchor_depth_errors more_bs4 headless_page
                           (wrapped 0%nat)
                           [wrapped 1%nat; wrapped 2%nat; wrapped 3%nat;
                            wrapped 4%nat; wrapped 5%nat; wrapped 6%nat;
                            BeautifulSoup [wrapped 6%nat]] []
                           ltac:(vm_compute; reflexivity)))
             (wrapped 6%nat)); reflexivity.
Defined.

(** ** The earlier script *)

Lemma anchor_loop_last (divs : list element) (d : element)
    (e0 : local element) :
  (forall e, e ∈ divs ++ [d] -> Legacy.is_anchor (fst e) = false) ->
  Legacy.anchor_loop (divs ++ [d]) e0 = Bound d.
Proof.
  revert e0. induction divs as [|x divs IH]; intros e0 H; simpl.
  - rewrite (H d); [reflexivity|]. apply elem_of_cons. left. reflexivity.
  - rewrite (H x); [|apply elem_of_cons; left; reflexivity].
    apply IH. intros e He. apply H. apply elem_of_cons. right. exact He.
Qed.

Lemma scrape_parent_raises_index (c : node) (e : exn) :
  Legacy.scrape_parent c = Raise e -> e = IndexError.
Proof.
  destruct (collect_parts (findChildren c)) as [|p ps] eqn:Hparts.
  { unfold Legacy.scrape_parent.
    pose proof (scan_children_parts (findChildren c) None []) as Hs.
    destruct (fold_left Legacy.scan_child (findChildren c) (None, []))
      as [rating _review].
    simpl in Hs. rewrite Hs, Hparts. discriminate. }
  assert (Hne : collect_parts (findChildren c) <> [])
    by (rewrite Hparts; done).
  destruct (truncate_reply_ok _ Hne) as [l Ht].
  rewrite (scrape_parent_cases c l Hne Ht).
  destruct l as [|a [|d rest]]; try discriminate.
  - congruence.
  - destruct (is_date d); discriminate.
Qed.

(** X10.  The loop body of the earlier script raises in one case only: with
    [IndexError], when one value is left after the truncation.  A candidate
    without a rating never makes it raise. *)
Theorem scrape_parent_raises_iff (c : node) (e : exn) :
  Legacy.scrape_parent c = Raise e
  <-> e = IndexError
      /\ exists a, truncate_reply (collect_parts (findChildren c)) = Ok [a].
Proof.
  destruct (collect_parts (findChildren c)) as [|p ps] eqn:Hparts.
  { split.
    - unfold Legacy.scrape_parent.
      pose proof (scan_children_parts (findChildren c) None []) as Hs.
      destruct (fold_left Legacy.scan_child (findChildren c) (None, []))
        as [rating _review].
      simpl in Hs. rewrite Hs, Hparts. discriminate.
    - intros (_ & a & Ht). discriminate. }
  assert (Hne : collect_parts (findChildren c) <> [])
    by (rewrite Hparts; done).
  destruct (truncate_reply_ok _ Hne) as [l Ht].
  rewrite (scrape_parent_cases c l Hne Ht). rewrite Hparts in Ht.
  split.
  - intros H. destruct l as [|a [|d rest]]; try discriminate.
    + injection H as <-. eauto.
    + destruct (is_date d); discriminate.
  - intros (-> & a & Ht'). rewrite Ht in Ht'. injection Ht' as ->.
    reflexivity.
Qed.

Lemma scrape_loop_raises (parents : list element) (acc : list review)
    (e : exn) :
  Legacy.scrape_loop parents acc = Raise e -> e = IndexError.
Proof.
  revert acc. induction parents as [|p parents IH]; intros acc;
    [discriminate|].
  simpl. unfold_bind.
  destruct (Legacy.scrape_parent (fst p)) as [o|e'] eqn:Hp.
  - apply IH.
  - intros [= <-]. apply (scrape_parent_raises_index (fst p) e'). exact Hp.
Qed.

Lemma parent_raises (x : option element) (e : exn) :
  parent x = Raise e -> e = AttributeError.
Proof. destruct x as [[n [|p anc]]|]; simpl; congruence. Qed.

Lemma getitem_class_raises (x : option element) (e : exn) :
  getitem_class x = Raise e -> e = TypeError \/ e = KeyError.
Proof.
  destruct x as [[[| |nm a [cls|] cs] anc]|]; simpl; intros [= <-]; auto.
Qed.

(** X11.  Where the packaged script stops for want of a rating anchor, the
    earlier one goes on: without any [div] it raises [UnboundLocalError],
    but with at least one [div] and no anchor its loop leaves [element]
    bound to the last [div] of the document, the six levels are climbed
    from there, and [UnboundLocalError] is not raised. *)
Theorem legacy_anchor_falls_back (bs4 : Bs4.library) (html : string) :
  (find_all (BeautifulSoup (html_parser bs4 html)) "div" = [] ->
   Legacy.scrape bs4 html = Raise UnboundLocalError)
  /\ (forall divs d,
         find_all (BeautifulSoup (html_parser bs4 html)) "div"
         = divs ++ [d] ->
         (forall e, e ∈ divs ++ [d] -> Legacy.is_anchor (fst e) = false) ->
         Legacy.anchor_loop
           (find_all (BeautifulSoup (html_parser bs4 html)) "div") Unbound
         = Bound d
         /\ Legacy.scrape bs4 html <> Raise UnboundLocalError).
Proof.
  split.
  - intros Hnil. unfold Legacy.scrape, Legacy.scrape_reviews,
      Legacy.scrape_parents. rewrite Hnil. reflexivity.
  - intros divs d Hdivs Hno.
    assert (Ha : Legacy.anchor_loop
                   (find_all (BeautifulSoup (html_parser bs4 html)) "div")
                   Unbound = Bound d).
    { rewrite Hdivs. apply anchor_loop_last. exact Hno. }
    split; [exact Ha|].
    unfold Legacy.scrape, Legacy.scrape_reviews, Legacy.scrape_parents.
    rewrite Ha. simpl read_local. unfold_bind.
    repeat match goal with
           | |- context [match parent ?x with Ok _ => _ | Raise _ => _ end] =>
               let E := fresh "E" in
               destruct (parent x) eqn:E;
               [|apply parent_raises in E; subst; discriminate]
           end.
    match goal with
    | |- context [match getitem_class ?x with Ok _ => _ | Raise _ => _ end] =>
        let E := fresh "E" in
        destruct (getitem_class x) eqn:E;
        [|apply getitem_class_raises in E; destruct E; subst; discriminate]
    end.
    match goal with
    | |- context [Legacy.scrape_loop ?ps ?acc] =>
        let E := fresh "E" in
        destruct (Legacy.scrape_loop ps acc) eqn:E;
        [discriminate|apply scrape_loop_raises in E; subst; discriminate]
    end.
Qed.

Lemma legacy_anchor_falls_back_witness :
  Legacy.scrape sample_bs4 "" = Raise UnboundLocalError
  /\ Legacy.scrape sample_bs4 page_no_anchor <> Raise UnboundLocalError.
Proof.
  split.
  - apply (proj1 (legacy_anchor_falls_back sample_bs4 "")).
    vm_compute. reflexivity.
  - apply (proj2 (legacy_anchor_falls_back sample_bs4 page_no_anchor) []
             (card_without_rating, [BeautifulSoup [card_without_rating]])).
    + vm_compute. reflexivity.
    + intros e He. apply list_elem_of_singleton in He. subst e. reflexivity.
Defined.

(** X12.  In the earlier script the rating of a record is absent exactly
    when no descendant of the candidate has a label that ends with
    [stars out of five stars]; the length of the label is not looked at
    there. *)
Theorem legacy_rating_absent_iff (c : node) :
  Legacy.final_rating c = None
  <-> forall el label,
        el ∈ findChildren c -> get_aria_label el = Some label ->
        endswith label "stars out of five stars" = false.
Proof.
  unfold Legacy.final_rating.
  assert (Hgen : forall els rating acc,
             fst (fold_left Legacy.scan_child els (rating, acc)) = None
             <-> rating = None
                 /\ forall el label,
                      el ∈ els -> get_aria_label el = Some label ->
                      endswith label "stars out of five stars" = false).
  { induction els as [|el els IH]; intros rating acc.
    - simpl. split.
      + intros H. split; [exact H|]. intros el label Hel. inversion Hel.
      + intros [H _]. exact H.
    - cbn [fold_left].
      destruct (Legacy.scan_child (rating, acc) el) as [rating' acc'] eqn:Hstep.
      rewrite IH.
      assert (Hr : rating'
                   = match get_aria_label el with
                     | Some _rating =>
                         if endswith _rating "stars out of five stars"
                         then Some (substring 6 1 _rating) else rating
                     | None => rating
                     end).
      { unfold Legacy.scan_child in Hstep.
        destruct (_ || _); injection Hstep as <- _; reflexivity. }
      split.
      + intros [Hnone Hall]. rewrite Hr in Hnone.
        destruct (get_aria_label el) as [label|] eqn:Hl.
        * destruct (endswith label "stars out of five stars") eqn:Hs;
            [discriminate|].
          split; [exact Hnone|]. intros x lx Hx Hlx.
          apply elem_of_cons in Hx as [->|Hx].
          -- rewrite Hl in Hlx. injection Hlx as <-. exact Hs.
          -- exact (Hall x lx Hx Hlx).
        * split; [exact Hnone|]. intros x lx Hx Hlx.
          apply elem_of_cons in Hx as [->|Hx].
          -- rewrite Hl in Hlx. discriminate.
          -- exact (Hall x lx Hx Hlx).
      + intros [-> Hall]. split.
        * rewrite Hr. destruct (get_aria_label el) as [label|] eqn:Hl;
            [|reflexivity].
          rewrite (Hall el label); [reflexivity| |exact Hl].
          apply elem_of_cons. left. reflexivity.
        * intros x lx Hx. apply Hall. apply elem_of_cons. right. exact Hx. }
  rewrite Hgen. split.
  - intros [_ H]. exact H.
  - intros H. split; [reflexivity|exact H].
Qed.

End SnapshotFacts.

(** * More on the click cache, the stabilizer and the crawl *)
Module BrowserMore.
Import Playscrape Selenium BrowserFacts.
Local Open Scope list_scope.

Section WithSelenium.
Context `{!Selenium.api}.

Lemma attempt_cache_at_key (element : web_element) (w : world) :
  CACHE (snd (attempt element w)) !! str element
  = (if fst (attempt element w) then Some true else None).
Proof.
  unfold attempt.
  destruct (CACHE w !! str element) as [v|] eqn:Hc.
  - rewrite (click_element_hit _ _ _ Hc).
    destruct v; simpl; [exact Hc|apply lookup_delete_eq].
  - destruct (click_element_miss _ _ Hc) as (w' & -> & Hcache & _).
    destruct (fst (click element (session w))); simpl.
    + rewrite Hcache. apply lookup_insert_eq.
    + apply lookup_delete_eq.
Qed.

(** X13.  After one pass of the loop body of [click_elements] the key of
    the element is in the cache exactly when the pass returned [True], and
    then with the value [True]; on the way, [_click_element] always leaves
    the key in the cache, so the [del] of line 65 never raises
    [KeyError]. *)
Theorem attempt_caches_success_only (element : web_element) (w : world) :
  CACHE (snd (attempt element w)) !! str element
  = (if fst (attempt element w) then Some true else None)
  /\ is_Some (CACHE (snd (_click_element element w)) !! str element).
Proof.
  split.
  - apply attempt_cache_at_key.
  - destruct (CACHE w !! str element) as [v|] eqn:Hc.
    + rewrite (click_element_hit _ _ _ Hc). simpl. rewrite Hc. eauto.
    + destruct (click_element_miss _ _ Hc) as (w' & -> & Hcache & _).
      simpl. rewrite Hcache, lookup_insert_eq. eauto.
Qed.

Lemma attempt_only_true (element : web_element) (w : world) :
  only_true (CACHE w) -> only_true (CACHE (snd (attempt element w))).
Proof.
  intros Hw k v Hk.
  destruct (decide (k = str element)) as [->|Hne].
  - rewrite (attempt_cache_at_key element w) in Hk.
    destruct (fst (attempt element w)); congruence.
  - unfold attempt in Hk.
    destruct (CACHE w !! str element) as [v'|] eqn:Hc.
    + rewrite (click_element_hit _ _ _ Hc) in Hk.
      destruct v'; simpl in Hk.
      * exact (Hw k v Hk).
      * rewrite lookup_delete_ne in Hk by congruence. exact (Hw k v Hk).
    + destruct (click_element_miss _ _ Hc) as (w' & E & Hcache & _).
      rewrite E in Hk.
      destruct (fst (click element (session w))); simpl in Hk;
        rewrite ?lookup_delete_ne, Hcache, lookup_insert_ne in Hk
          by congruence;
        exact (Hw k v Hk).
Qed.

Lemma click_elements_only_true (element_type text : string) (w : world) :
  only_true (CACHE w) ->
  only_true (CACHE (click_elements element_type text w)).
Proof.
  unfold click_elements.
  generalize (find_elements (session w) (xpath element_type text)).
  intros els. revert w. induction els as [|el els IH]; intros w Hw.
  - exact Hw.
  - simpl. apply IH, attempt_only_true, Hw.
Qed.

Lemma expand_page_only_true (w : world) :
  only_true (CACHE w) -> only_true (CACHE (expand_page w)).
Proof.
  intros Hw. unfold expand_page, sleep, emit, with_session.
  cbn [trace session CACHE].
  generalize TENACITY. intros n. induction n as [|n IH]; [exact Hw|].
  simpl. apply click_elements_only_true, click_elements_only_true, IH.
Qed.

Lemma expand_loop_only_true (pages : list Z) (w : world) :
  only_true (CACHE w) -> only_true (CACHE (snd (expand_loop pages w))).
Proof.
  revert w. induction pages as [|p pages IH]; intros w Hw; [exact Hw|].
  cbn [expand_loop].
  assert (Hw' : only_true
                  (CACHE (expand_page (emit (Secho (OnReviewPage p)) w))))
    by (apply expand_page_only_true; exact Hw).
  destruct (_ =? _)%nat; [exact Hw'|]. apply IH, Hw'.
Qed.

Lemma expand_reviews_only_true (max_scrolls : Z) (w : world) :
  only_true (CACHE w) -> only_true (CACHE (expand_reviews max_scrolls w)).
Proof.
  intros Hw. unfold expand_reviews.
  pose proof (expand_loop_only_true (range max_scrolls) w Hw) as Hl.
  destruct (expand_loop (range max_scrolls) w) as [[|] w']; exact Hl.
Qed.

(** X14.  Failed clicks are never kept: if the cache holds no [False]
    before, it holds none after [expand_reviews], after a crawl, and after
    the whole loop of the command, so every entry stands for an element that
    was clicked with success. *)
Theorem cache_holds_successes_only (bs4 : Bs4.library)
    (driver_location : string) (max_scrolls : Z) (w : world)
    (Hw : only_true (CACHE w)) :
  only_true (CACHE (expand_reviews max_scrolls w))
  /\ (forall app_id,
         only_true (CACHE (snd (expand_and_parse_reviews bs4 driver_location
                                  app_id max_scrolls w))))
  /\ (forall app_ids,
         only_true (CACHE (snd (playscrape bs4 driver_location app_ids
                                  max_scrolls w)))).
Proof.
  assert (Hcrawl : forall app w0,
             only_true (CACHE w0) ->
             only_true (CACHE (snd (expand_and_parse_reviews bs4
                                      driver_location app max_scrolls w0)))).
  { intros app w0 H0. unfold expand_and_parse_reviews. cbn [snd].
    unfold close_browser, emit. cbn [CACHE].
    apply expand_reviews_only_true. exact H0. }
  split; [apply expand_reviews_only_true; exact Hw|].
  split; [intros app; apply Hcrawl; exact Hw|].
  intros app_ids. revert w Hw.
  induction app_ids as [|app app_ids IH]; intros w Hw; [exact Hw|].
  cbn [playscrape].
  pose proof (Hcrawl app (emit (Secho (Processing app)) w) Hw) as Hc.
  destruct (expand_and_parse_reviews bs4 driver_location app max_scrolls
              (emit (Secho (Processing app)) w)) as [[reviews|e] w'].
  - apply IH. exact Hc.
  - exact Hc.
Qed.

(** X15.  When every element that the search finds has been clicked with
    success before, [click_elements] does nothing at all: no click, no
    pause, no change of the cache.  That is what makes the repetitions of
    line 90 cheap. *)
Theorem click_elements_on_cached_is_noop (element_type text : string)
    (w : world)
    (Hall : forall element,
        element ∈ find_elements (session w) (xpath element_type text) ->
        CACHE w !! str element = Some true) :
  click_elements element_type text w = w.
Proof.
  unfold click_elements.
  induction (find_elements (session w) (xpath element_type text))
    as [|el els IH]; [reflexivity|].
  simpl. rewrite attempt_hit_true.
  - apply IH. intros x Hx. apply Hall. apply elem_of_cons. right. exact Hx.
  - apply Hall. apply elem_of_cons. left. reflexivity.
Qed.

(** X16.  With a budget that is zero or negative the page is never
    expanded: [expand_reviews] only prints the warning. *)
Theorem expand_reviews_without_budget (max_scrolls : Z) (w : world)
    (Hn : max_scrolls <= 0) :
  expand_reviews max_scrolls w = emit (Secho IncreaseMaxScrolls) w.
Proof.
  unfold expand_reviews, range.
  replace (Z.to_nat max_scrolls) with 0%nat by lia. reflexivity.
Qed.

Lemma expand_loop_outcome (m s : nat) (w : world) :
  (exists k, (s <= k < s + m)%nat
             /\ expand_loop (map Z.of_nat (seq s m)) (after_rounds s w)
                = (true, after_rounds (S k) w))
  \/ expand_loop (map Z.of_nat (seq s m)) (after_rounds s w)
     = (false, after_rounds (s + m) w).
Proof.
  revert s. induction m as [|m IH]; intros s.
  - right. simpl. rewrite Nat.add_0_r. reflexivity.
  - simpl map. cbn [expand_loop].
    change (expand_page (emit (Secho (OnReviewPage (Z.of_nat s)))
                           (after_rounds s w)))
      with (after_rounds (S s) w).
    destruct (_ =? _)%nat.
    + left. exists s. split; [lia|reflexivity].
    + destruct (IH (S s)) as [(k & Hk & E)|E].
      * left. exists k. split; [lia|exact E].
      * right. rewrite E. replace (S s + m)%nat with (s + S m)%nat by lia.
        reflexivity.
Qed.

(** X17.  [expand_reviews] never goes beyond its budget, whatever the page
    does: it performs some number [k] of rounds, at most [max_scrolls] and at
    least one if the budget allows one, and it ends either in the state after
    these rounds or, having used the whole budget, in that state with the
    warning printed. *)
Theorem expand_reviews_within_budget (max_scrolls : Z) (w : world) :
  exists k added,
    (k <= Z.to_nat max_scrolls)%nat
    /\ (0 < max_scrolls -> (1 <= k)%nat)
    /\ (expand_reviews max_scrolls w = after_rounds k w
        \/ (k = Z.to_nat max_scrolls
            /\ expand_reviews max_scrolls w
               = emit (Secho IncreaseMaxScrolls) (after_rounds k w)))
    /\ trace (after_rounds k w) = trace w ++ added
    /\ rounds added = k.
Proof.
  destruct (expand_loop_outcome (Z.to_nat max_scrolls) 0 w)
    as [(k & Hk & E)|E]; change (after_rounds 0 w) with w in E.
  - assert (Hx : expand_reviews max_scrolls w = after_rounds (S k) w)
      by (unfold expand_reviews, range; rewrite E; reflexivity).
    destruct (after_rounds_trace (S k) w) as (added & Ha & Hr & _).
    exists (S k), added. split; [lia|]. split; [lia|].
    split; [left; exact Hx|]. split; [exact Ha|exact Hr].
  - assert (Hx : expand_reviews max_scrolls w
                 = emit (Secho IncreaseMaxScrolls)
                        (after_rounds (Z.to_nat max_scrolls) w))
      by (unfold expand_reviews, range; rewrite E; reflexivity).
    destruct (after_rounds_trace (Z.to_nat max_scrolls) w)
      as (added & Ha & Hr & _).
    exists (Z.to_nat max_scrolls), added. split; [lia|]. split; [lia|].
    split; [right; split; [reflexivity|exact Hx]|].
    split; [exact Ha|exact Hr].
Qed.

Lemma clicking_in_session (added : list event) :
  Forall clicking added -> Forall in_session added.
Proof.
  intros Hall. eapply Forall_impl; [exact Hall|].
  intros ev. destruct ev; simpl; tauto.
Qed.

Lemma expand_page_in_session (w : world) :
  exists added,
    trace (expand_page w) = trace w ++ added /\ Forall in_session added.
Proof.
  unfold expand_page.
  destruct (extends_clicking_iter
              (fun w => click_elements "span" "Show More"
                          (click_elements "button" "Full Review" w))
              TENACITY
              (extends_clicking_compose _ _
                 (click_elements_trace "button" "Full Review")
                 (click_elements_trace "span" "Show More")) w)
    as (a & Ha & Hca).
  exists (a ++ [SendKeysEnd; Sleep SLEEP_TIME]). split.
  - unfold sleep, emit, with_session. cbn [trace session CACHE].
    rewrite Ha, <- !app_assoc. reflexivity.
  - apply Forall_app. split; [apply clicking_in_session, Hca|].
    repeat constructor.
Qed.

Lemma expand_loop_in_session (pages : list Z) (w : world) :
  exists added,
    trace (snd (expand_loop pages w)) = trace w ++ added
    /\ Forall in_session added.
Proof.
  revert w. induction pages as [|p pages IH]; intros w.
  - exists []. simpl. rewrite app_nil_r. split; [reflexivity|constructor].
  - cbn [expand_loop].
    destruct (expand_page_in_session (emit (Secho (OnReviewPage p)) w))
      as (a & Ha & Hia).
    unfold emit in Ha at 2. cbn [trace] in Ha.
    destruct (_ =? _)%nat.
    + exists ([Secho (OnReviewPage p)] ++ a). cbn [snd].
      rewrite Ha, <- app_assoc. split; [reflexivity|].
      apply Forall_app. split; [repeat constructor|exact Hia].
    + destruct (IH (expand_page (emit (Secho (OnReviewPage p)) w)))
        as (b & Hb & Hib).
      exists ([Secho (OnReviewPage p)] ++ a ++ b).
      rewrite Hb, Ha, <- !app_assoc. split; [reflexivity|].
      apply Forall_app. split; [repeat constructor|].
      apply Forall_app. split; assumption.
Qed.

(** X18.  A crawl brackets its work: it opens one browser, pauses six
    seconds, does the rounds of [expand_reviews], which neither open nor
    close a browser nor write a file, closes the browser, and then writes
    the source and the title to disk, before the source is parsed and
    whatever the parser makes of it. *)
Theorem crawl_brackets_session (bs4 : Bs4.library)
    (driver_location app_id : string) (max_scrolls : Z) (w : world) :
  exists body,
    trace (snd (expand_and_parse_reviews bs4 driver_location app_id
                  max_scrolls w))
    = trace w
      ++ [OpenBrowser (PLAY_URL app_id); Sleep 6]
      ++ body
      ++ [CloseBrowser;
          WriteFile (HTML_PATH (app_id +:+ "-source.html"));
          WriteFile (HTML_PATH (app_id +:+ "-title"))]
    /\ Forall in_session body.
Proof.
  unfold expand_and_parse_reviews. cbn [snd].
  set (w1 := open_browser driver_location (PLAY_URL app_id) w).
  destruct (expand_loop_in_session (range max_scrolls) w1) as (a & Ha & Hia).
  assert (Hw1 : trace w1
                = trace w ++ [OpenBrowser (PLAY_URL app_id); Sleep 6]).
  { unfold w1, open_browser, sleep, emit, with_session.
    cbn [trace session CACHE]. rewrite <- app_assoc. reflexivity. }
  unfold expand_reviews.
  destruct (expand_loop (range max_scrolls) w1) as [[|] w2];
    cbn [snd negb] in *.
  - exists a. split; [|exact Hia].
    unfold close_browser, emit. cbn [trace].
    rewrite Ha, Hw1, <- !app_assoc. reflexivity.
  - exists (a ++ [Secho IncreaseMaxScrolls]). split.
    + unfold close_browser, emit. cbn [trace].
      rewrite Ha, Hw1, <- !app_assoc. reflexivity.
    + apply Forall_app. split; [exact Hia|repeat constructor].
Qed.

(** X19.  The loop of the command goes through the identifiers one after
    the other and stops at the first whose source makes the parser raise:
    over a list followed by another it does the first list and, if that ended
    well, goes on with the second from the state reached; if not, the second
    list is never touched. *)
Theorem playscrape_loop_composes (bs4 : Bs4.library)
    (driver_location : string) (ids more : list string) (max_scrolls : Z)
    (w : world) :
  playscrape bs4 driver_location (ids ++ more) max_scrolls w
  = match playscrape bs4 driver_location ids max_scrolls w with
    | (Ok _, w') => playscrape bs4 driver_location more max_scrolls w'
    | (Raise e, w') => (Raise e, w')
    end.
Proof.
  revert w. induction ids as [|id ids IH]; intros w; [reflexivity|].
  rewrite <- app_comm_cons. cbn [playscrape].
  destruct (expand_and_parse_reviews bs4 driver_location id max_scrolls
              (emit (Secho (Processing id)) w)) as [[reviews|e] w'].
  - apply IH.
  - reflexivity.
Qed.

End WithSelenium.

Section Samples.
Import Fixtures MoreFixtures.

Lemma cache_holds_successes_only_witness :
  only_true (CACHE (@expand_reviews sample_selenium 10 fresh))
  /\ (forall app_id,
         only_true (CACHE (snd (@expand_and_parse_reviews sample_selenium
                                  sample_bs4 "chromedriver" app_id 10
                                  fresh))))
  /\ (forall app_ids,
         only_true (CACHE (snd (@playscrape sample_selenium sample_bs4
                                  "chromedriver" app_ids 10 fresh)))).
Proof.
  apply (@cache_holds_successes_only sample_selenium sample_bs4
           "chromedriver" 10 fresh).
  intros k v Hk. vm_compute in Hk. discriminate.
Defined.

(** A second pass over two buttons that the first pass clicked. *)
Lemma click_elements_on_cached_is_noop_witness :
  let w := @click_elements obliging_selenium "button" "Full Review"
             obliging_fresh in
  @click_elements obliging_selenium "button" "Full Review" w = w.
Proof.
  apply (@click_elements_on_cached_is_noop obliging_selenium).
  intros element Hel.
  apply elem_of_cons in Hel as [->|Hel]; [vm_compute; reflexivity|].
  apply list_elem_of_singleton in Hel. subst element.
  vm_compute. reflexivity.
Defined.

Lemma expand_reviews_without_budget_witness :
  @expand_reviews sample_selenium (-1) fresh
  = emit (Secho IncreaseMaxScrolls) fresh.
Proof.
  apply (@expand_reviews_without_budget sample_selenium (-1) fresh). lia.
Defined.

End Samples.

End BrowserMore.

(** * The command line *)
Module CommandFacts.
Import Command.
Local Open Scope list_scope.

Lemma split_nonempty (sep : ascii) (s : string) : split sep s <> [].
Proof.
  destruct s as [|c s]; simpl; [discriminate|].
  destruct (Ascii.eqb c sep); [discriminate|].
  destruct (split sep s); discriminate.
Qed.

Lemma split_single_empty (sep : ascii) (s : string) :
  split sep s = [EmptyString] <-> s = EmptyString.
Proof.
  split; [|intros ->; reflexivity].
  destruct s as [|c s]; [reflexivity|]. simpl.
  destruct (Ascii.eqb c sep).
  - intros [= H]. exfalso. exact (split_nonempty sep s H).
  - destruct (split sep s); discriminate.
Qed.

Section WithHost.
Context `{!Host.api}.

(** X20.  For an identifier to whose page the store answers with status
    200, [validate_app_id] returns the identifier after one request and
    prints [Validating id ... ], a carriage return, and
    [Validating id ... ] with the check mark and a line end, as the test
    [test_validate_app_id_good] expects for one identifier. *)
Theorem validate_app_id_good (app_id : string)
    (Hok : Host.status_code (Playscrape.PLAY_URL app_id) = 200) :
  fst (validate_app_id app_id) = Done app_id
  /\ printed (snd (validate_app_id app_id))
     = "Validating " +:+ app_id +:+ " ... " +:+ carriage_return
       +:+ "Validating " +:+ app_id +:+ " ... " +:+ CHECK_MARK +:+ newline
  /\ List.filter (fun ev => match ev with HttpGet _ => true | _ => false end)
                 (snd (validate_app_id app_id))
     = [HttpGet (Playscrape.PLAY_URL app_id)].
Proof.
  unfold validate_app_id. rewrite Hok. simpl.
  split; [reflexivity|]. split; [|reflexivity].
  vm_compute. reflexivity.
Qed.

(** X21.  For an identifier whose status is not 200 and for which
    [raise_for_status] raises, [validate_app_id] prints the line with the
    cross and raises [HTTPError]; the line with the check mark is not
    printed. *)
Theorem validate_app_id_bad (app_id : string)
    (Hstatus : Host.status_code (Playscrape.PLAY_URL app_id) <> 200)
    (Hraise : Host.raises_for_status
                (Host.status_code (Playscrape.PLAY_URL app_id)) = true) :
  fst (validate_app_id app_id)
  = Failed (HTTPError (Host.status_code (Playscrape.PLAY_URL app_id)))
  /\ printed (snd (validate_app_id app_id))
     = "Validating " +:+ app_id +:+ " ... " +:+ carriage_return
       +:+ "Validating " +:+ app_id +:+ " ... " +:+ CROSS_MARK +:+ newline.
Proof.
  unfold validate_app_id.
  destruct (Z.eqb_spec (Host.status_code (Playscrape.PLAY_URL app_id)) 200)
    as [E|_]; [contradiction|].
  simpl negb. cbv iota. rewrite Hraise. simpl.
  split; [reflexivity|].
  vm_compute. reflexivity.
Qed.

(** X22.  The status is compared with 200, but only [raise_for_status]
    stops the validation: for a status that is not 200 and for which it does
    not raise, [validate_app_id] prints the line with the cross, then the
    line with the check mark, and returns the identifier as valid. *)
Theorem validate_app_id_accepts_other_status (app_id : string)
    (Hstatus : Host.status_code (Playscrape.PLAY_URL app_id) <> 200)
    (Hquiet : Host.raises_for_status
                (Host.status_code (Playscrape.PLAY_URL app_id)) = false) :
  fst (validate_app_id app_id) = Done app_id
  /\ printed (snd (validate_app_id app_id))
     = "Validating " +:+ app_id +:+ " ... " +:+ carriage_return
       +:+ "Validating " +:+ app_id +:+ " ... " +:+ CROSS_MARK +:+ newline
       +:+ "Validating " +:+ app_id +:+ " ... " +:+ CHECK_MARK +:+ newline.
Proof.
  unfold validate_app_id.
  destruct (Z.eqb_spec (Host.status_code (Playscrape.PLAY_URL app_id)) 200)
    as [E|_]; [contradiction|].
  simpl negb. cbv iota. rewrite Hquiet. simpl.
  split; [reflexivity|].
  vm_compute. reflexivity.
Qed.

Lemma validate_app_id_done (app_id validated : string) :
  fst (validate_app_id app_id) = Done validated -> validated = app_id.
Proof.
  unfold validate_app_id.
  destruct (negb _); [destruct (Host.raises_for_status _)|]; simpl;
    congruence.
Qed.

Lemma validate_app_id_failed (app_id : string) (e : cli_exn) :
  fst (validate_app_id app_id) = Failed e ->
  exists status, e = HTTPError status.
Proof.
  unfold validate_app_id.
  destruct (negb _); [destruct (Host.raises_for_status _)|]; simpl;
    intros [= <-] || discriminate. eauto.
Qed.

Lemma validate_all_failed (app_ids : list string) (e : cli_exn) :
  fst (validate_all app_ids) = Failed e -> exists status, e = HTTPError status.
Proof.
  induction app_ids as [|id ids IH]; simpl; [discriminate|].
  pose proof (validate_app_id_failed id) as Hid.
  destruct (validate_app_id id) as [[v|e'] out]; simpl in *.
  - destruct (validate_all ids) as [[vs|e''] out']; simpl in *;
      [discriminate|]. intros [= <-]. apply IH. reflexivity.
  - intros [= <-]. apply Hid. reflexivity.
Qed.

(** X23.  The identifiers are validated in order and the first failure
    ends the validation: the identifiers after it are never requested. *)
Theorem validation_stops_at_first_failure (ids more : list string)
    (e : cli_exn)
    (Hfail : fst (validate_all ids) = Failed e) :
  validate_all (ids ++ more) = validate_all ids.
Proof.
  induction ids as [|id ids IH]; [discriminate|].
  rewrite <- app_comm_cons. simpl in *.
  destruct (validate_app_id id) as [[v|e'] out]; [|reflexivity].
  destruct (validate_all ids) as [[vs|e''] out'] eqn:Hids; simpl in *;
    [discriminate|].
  rewrite (IH Hfail). reflexivity.
Qed.

Section WithBrowser.
Context `{!Selenium.api} (bs4 : Bs4.library).

(** X24.  The command raises [ValueError] exactly when [--app-ids] is the
    empty text, and then before any request and any browser.  A text of
    commas only passes this check: its parts are empty identifiers, which
    are validated like any other. *)
Theorem no_app_ids_iff (driver_location app_ids : string) (max_scrolls : Z)
    (w : Playscrape.world) :
  (fst (fst (playscrape bs4 driver_location app_ids max_scrolls w))
   = Failed ValueError
   <-> app_ids = EmptyString)
  /\ (app_ids = EmptyString ->
      playscrape bs4 driver_location app_ids max_scrolls w
      = (Failed ValueError, [], w)).
Proof.
  split.
  - split.
    + unfold playscrape.
      destruct (decide (split "," app_ids = [EmptyString])) as [E|_].
      * intros _. apply (split_single_empty "," app_ids). exact E.
      * pose proof (validate_all_failed (split "," app_ids)) as Hv.
        destruct (validate_all (split "," app_ids)) as [[ids|e] out].
        -- destruct (Playscrape.playscrape _ _ _ _ _) as [[u|e] w'];
             simpl; discriminate.
        -- simpl. intros [= ->].
           destruct (Hv ValueError eq_refl) as [status Hs]. discriminate.
    + intros ->. reflexivity.
  - intros ->. reflexivity.
Qed.

(** X25.  The command fails fast: when the validation of some identifier
    raises, the command ends with that exception, no browser has been
    opened, and the state of the process is as it was. *)
Theorem failed_validation_opens_no_browser (driver_location app_ids : string)
    (max_scrolls : Z) (w : Playscrape.world) (e : cli_exn)
    (Hids : app_ids <> EmptyString)
    (Hfail : fst (validate_all (split "," app_ids)) = Failed e) :
  playscrape bs4 driver_location app_ids max_scrolls w
  = (Failed e, snd (validate_all (split "," app_ids)), w)
  /\ exists status, e = HTTPError status.
Proof.
  split; [|exact (validate_all_failed _ _ Hfail)].
  unfold playscrape.
  destruct (decide (split "," app_ids = [EmptyString])) as [E|_].
  - exfalso. apply Hids. apply (split_single_empty "," app_ids). exact E.
  - destruct (validate_all (split "," app_ids)) as [[ids|e'] out];
      simpl in *; [discriminate|]. injection Hfail as ->. reflexivity.
Qed.

End WithBrowser.
End WithHost.

Section Samples.
Import Fixtures MoreFixtures.
#[local] Existing Instance sample_host.
#[local] Existing Instance sample_selenium.

(** The identifier of [test_validate_app_id_good]. *)
Lemma validate_app_id_good_witness :
  fst (validate_app_id "com.nhs.online.nhsonline")
  = Done "com.nhs.online.nhsonline"
  /\ printed (snd (validate_app_id "com.nhs.online.nhsonline"))
     = "Validating " +:+ "com.nhs.online.nhsonline" +:+ " ... "
       +:+ carriage_return
       +:+ "Validating " +:+ "com.nhs.online.nhsonline" +:+ " ... "
       +:+ CHECK_MARK +:+ newline
  /\ List.filter (fun ev => match ev with HttpGet _ => true | _ => false end)
                 (snd (validate_app_id "com.nhs.online.nhsonline"))
     = [HttpGet (Playscrape.PLAY_URL "com.nhs.online.nhsonline")].
Proof.
  apply (validate_app_id_good "com.nhs.online.nhsonline").
  vm_compute. reflexivity.
Defined.

(** The identifier of [test_validate_app_id_bad]. *)
Lemma validate_app_id_bad_witness :
  fst (validate_app_id "foo.bar.baz") = Failed (HTTPError 404)
  /\ printed (snd (validate_app_id "foo.bar.baz"))
     = "Validating " +:+ "foo.bar.baz" +:+ " ... " +:+ carriage_return
       +:+ "Validating " +:+ "foo.bar.baz" +:+ " ... " +:+ CROSS_MARK
       +:+ newline.
Proof.
  pose proof (@validate_app_id_bad sample_host "foo.bar.baz"
                ltac:(vm_compute; discriminate)
                ltac:(vm_compute; reflexivity)) as H.
  vm_compute in H. vm_compute. exact H.
Defined.

Lemma validate_app_id_accepts_other_status_witness :
  fst (validate_app_id "no.content") = Done "no.content"
  /\ printed (snd (validate_app_id "no.content"))
     = "Validating " +:+ "no.content" +:+ " ... " +:+ carriage_return
       +:+ "Validating " +:+ "no.content" +:+ " ... " +:+ CROSS_MARK
       +:+ newline
       +:+ "Validating " +:+ "no.content" +:+ " ... " +:+ CHECK_MARK
       +:+ newline.
Proof.
  apply (@validate_app_id_accepts_other_status sample_host "no.content").
  - vm_compute. discriminate.
  - vm_compute. reflexivity.
Defined.

Lemma validation_stops_at_first_failure_witness :
  validate_all (["com.nhs.online.nhsonline"; "foo.bar.baz"]
                ++ ["com.nhs.online.nhsonline"])
  = validate_all ["com.nhs.online.nhsonline"; "foo.bar.baz"].
Proof.
  apply (validation_stops_at_first_failure
           ["com.nhs.online.nhsonline"; "foo.bar.baz"]
           ["com.nhs.online.nhsonline"] (HTTPError 404)).
  vm_compute. reflexivity.
Defined.

Lemma failed_validation_opens_no_browser_witness :
  playscrape sample_bs4 "chromedriver" "com.nhs.online.nhsonline,foo.bar.baz"
    10 fresh
  = (Failed (HTTPError 404),
     snd (validate_all (split "," "com.nhs.online.nhsonline,foo.bar.baz")),
     fresh)
  /\ exists status, HTTPError 404 = HTTPError status.
Proof.
  apply (failed_validation_opens_no_browser sample_bs4 "chromedriver"
           "com.nhs.online.nhsonline,foo.bar.baz" 10 fresh (HTTPError 404)).
  - discriminate.
  - vm_compute. reflexivity.
Defined.

End Samples.

End CommandFacts.

(** * Dates *)
Module DateFacts.
Import Strptime Written.
Local Open Scope list_scope.

Lemma digit_char_spec (n : Z) :
  0 <= n <= 9 ->
  is_digit (digit_char n) = true
  /\ digit (digit_char n) = n
  /\ is_space (digit_char n) = false.
Proof.
  intros Hn.
  rewrite <- (Z2Nat.id n) by lia.
  assert (Hlt : (Z.to_nat n < 10)%nat) by lia.
  revert Hlt. generalize (Z.to_nat n) as d. clear Hn. intros d Hlt.
  do 10 (destruct d as [|d]; [repeat split; reflexivity|]).
  lia.
Qed.

Lemma thousands_digit (y : Z) : 0 <= y <= 9999 -> 0 <= y / 1000 <= 9.
Proof.
  intros Hy. split; [apply Z.div_pos; lia|].
  apply Z.lt_succ_r. apply Z.div_lt_upper_bound; lia.
Qed.

Section Matcher.
Context {R : Type}.

Lemma month_written (m : Z) (s : list ascii)
    (k : Z -> list ascii -> option R) (r : R) :
  1 <= m <= 12 ->
  k m s = Some r ->
  month (list_ascii_of_string (month_title m) ++ s) k = Some r.
Proof.
  intros Hm Hk.
  assert (Hc : m = 1 \/ m = 2 \/ m = 3 \/ m = 4 \/ m = 5 \/ m = 6 \/ m = 7
               \/ m = 8 \/ m = 9 \/ m = 10 \/ m = 11 \/ m = 12) by lia.
  repeat destruct Hc as [->|Hc]; try subst m;
    vm_compute; vm_compute in Hk; rewrite Hk; reflexivity.
Qed.

Lemma spaces_plus_single (c : ascii) (s : list ascii)
    (k : list ascii -> option R) (r : R) :
  is_space c = false ->
  k (c :: s) = Some r ->
  spaces_plus (" "%char :: c :: s) k = Some r.
Proof.
  intros Hc Hk. unfold spaces_plus.
  change (is_space " ") with true. cbv iota.
  cbn [spaces_star]. rewrite Hc. exact Hk.
Qed.

Lemma day_written (d : Z) (s : list ascii)
    (k : Z -> list ascii -> option R) (r : R) :
  1 <= d <= 31 ->
  k d (","%char :: s) = Some r ->
  day (show_day d ++ ","%char :: s) k = Some r.
Proof.
  intros Hd Hk.
  assert (Hc : d = 1 \/ d = 2 \/ d = 3 \/ d = 4 \/ d = 5 \/ d = 6 \/ d = 7
               \/ d = 8 \/ d = 9 \/ d = 10 \/ d = 11 \/ d = 12 \/ d = 13
               \/ d = 14 \/ d = 15 \/ d = 16 \/ d = 17 \/ d = 18 \/ d = 19
               \/ d = 20 \/ d = 21 \/ d = 22 \/ d = 23 \/ d = 24 \/ d = 25
               \/ d = 26 \/ d = 27 \/ d = 28 \/ d = 29 \/ d = 30 \/ d = 31)
    by lia.
  repeat destruct Hc as [->|Hc]; try subst d;
    vm_compute; vm_compute in Hk; rewrite Hk; reflexivity.
Qed.

Lemma year_written (y : Z) (k : Z -> list ascii -> option R) (r : R) :
  0 <= y <= 9999 ->
  k y [] = Some r ->
  year (show_year y) k = Some r.
Proof.
  intros Hy Hk. unfold year, show_year.
  destruct (digit_char_spec (y / 1000)) as (-> & -> & _);
    [apply thousands_digit; exact Hy|].
  destruct (digit_char_spec (y / 100 mod 10)) as (-> & -> & _);
    [pose proof (Z.mod_pos_bound (y / 100) 10); lia|].
  destruct (digit_char_spec (y / 10 mod 10)) as (-> & -> & _);
    [pose proof (Z.mod_pos_bound (y / 10) 10); lia|].
  destruct (digit_char_spec (y mod 10)) as (-> & -> & _);
    [pose proof (Z.mod_pos_bound y 10); lia|].
  simpl andb. cbv iota.
  replace (1000 * (y / 1000) + 100 * (y / 100 mod 10)
           + 10 * (y / 10 mod 10) + y mod 10) with y; [exact Hk|].
  Z.to_euclidean_division_equations. lia.
Qed.

End Matcher.

Lemma days_in_month_bound (y m : Z) : days_in_month y m <= 31.
Proof.
  unfold days_in_month.
  destruct (m =? 2); [destruct (is_leap y); lia|].
  destruct (_ || _); lia.
Qed.

(** X26.  Every date of the calendar, from year 1 to year 9999, written as
    the store writes it ([June 1, 2020]: the English name of the month, the
    day without a leading zero, a comma, the year with four digits) is
    accepted by [is_date], and [strptime] reads the same date back. *)
Theorem written_date_is_accepted (y m d : Z)
    (Hvalid : valid_date y m d = true) :
  strptime (written_date y m d) = Some (y, m, d)
  /\ is_date (written_date y m d) = true.
Proof.
  assert (Hs : strptime (written_date y m d) = Some (y, m, d)).
  { pose proof Hvalid as Hv. unfold valid_date in Hv.
    repeat (apply andb_prop in Hv as [Hv ?]).
    pose proof (days_in_month_bound y m).
    assert (Hy : 1 <= y <= 9999) by lia.
    assert (Hm : 1 <= m <= 12) by lia.
    assert (Hd : 1 <= d <= 31) by lia.
    unfold strptime, written_date.
    rewrite list_ascii_of_string_of_list_ascii.
    assert (Hmatch : regex_match
                       (list_ascii_of_string (month_title m)
                        ++ " "%char :: show_day d
                        ++ ","%char :: " "%char :: show_year y)
                     = Some (y, m, d, [])).
    { unfold regex_match.
      apply month_written; [exact Hm|].
      assert (Hday : exists c cs, show_day d = c :: cs
                                  /\ is_space c = false).
      { unfold show_day. destruct (d <? 10) eqn:Hlt.
        - eexists _, _. split; [reflexivity|].
          apply digit_char_spec. lia.
        - eexists _, _. split; [reflexivity|].
          apply digit_char_spec.
          split; [apply Z.div_pos; lia|apply Z.div_le_upper_bound; lia]. }
      destruct Hday as (c & cs & Hshow & Hc).
      rewrite Hshow. rewrite <- app_comm_cons.
      apply spaces_plus_single; [exact Hc|].
      rewrite app_comm_cons, <- Hshow.
      apply day_written; [exact Hd|].
      unfold comma. change (Ascii.eqb "," ",") with true. cbv iota.
      unfold show_year at 1.
      apply spaces_plus_single.
      { apply digit_char_spec. apply thousands_digit. lia. }
      change (digit_char (y / 1000)
              :: [digit_char (y / 100 mod 10); digit_char (y / 10 mod 10);
                  digit_char (y mod 10)]) with (show_year y).
      apply year_written; [lia|reflexivity]. }
    rewrite Hmatch, Hvalid. reflexivity. }
  split; [exact Hs|]. unfold is_date. rewrite Hs. reflexivity.
Qed.

Lemma written_date_is_accepted_witness :
  strptime (written_date 2020 2 29) = Some (2020, 2, 29)
  /\ is_date (written_date 2020 2 29) = true.
Proof.
  apply (written_date_is_accepted 2020 2 29). reflexivity.
Defined.

End DateFacts.

(** * The crawl of the earlier script *)
Module LegacyCrawlFacts.
Import Selenium LegacyCrawl.
Local Open Scope list_scope.

Section WithSelenium.
Context `{!Selenium.api} (pause : Z -> driver -> driver).

Lemma click_one_log (st : state) (e : web_element) :
  exists added,
    log (click_one pause st e) = log st ++ added /\ clicked added = 1%nat.
Proof.
  unfold click_one. destruct (click e (browser st)) as [[|] d].
  - exists [Clicked (str e) true; Slept 1500]. split; [|reflexivity].
    unfold sleep_ms, record. simpl. rewrite <- app_assoc. reflexivity.
  - exists [Clicked (str e) false]. split; reflexivity.
Qed.

Lemma clicked_app (l l' : list step) :
  clicked (l ++ l') = (clicked l + clicked l')%nat.
Proof. unfold clicked. rewrite List.filter_app, length_app. reflexivity. Qed.

Lemma fold_click_one_log (els : list web_element) (st : state) :
  exists added,
    log (fold_left (click_one pause) els st) = log st ++ added
    /\ clicked added = length els.
Proof.
  revert st. induction els as [|e els IH]; intros st.
  - exists []. simpl. rewrite app_nil_r. split; reflexivity.
  - simpl. destruct (click_one_log st e) as (a & Ha & Hca).
    destruct (IH (click_one pause st e)) as (b & Hb & Hcb).
    exists (a ++ b). rewrite Hb, Ha, app_assoc. split; [reflexivity|].
    rewrite clicked_app, Hca, Hcb. reflexivity.
Qed.

(** X27.  [click_live] keeps no memory: each call clicks every element that
    the search finds, once, whether or not it was clicked before. *)
Theorem click_live_clicks_every_element (element_type text : string)
    (st : state) :
  exists added,
    log (click_live pause element_type text st) = log st ++ added
    /\ clicked added
       = length (find_elements (browser st)
                   (Playscrape.xpath element_type text)).
Proof. unfold click_live. apply fold_click_one_log. Qed.

(** X28.  The [while] loop of [crawl] is entered with [new_length] one
    above the length of the page, so its body always runs once, and it runs
    again only if that first pass made the page longer by two characters or
    more: growth by a single character ends the loop. *)
Theorem first_pass_needs_two_characters (fuel : nat) (sleep : Z)
    (st : state)
    (Hgrowth : (source_len (pass pause sleep st) <= S (source_len st))%nat) :
  scroll_while pause (S fuel) sleep (source_len st) (S (source_len st)) st
  = Some (pass pause sleep st).
Proof.
  cbn [scroll_while].
  replace (source_len st <? S (source_len st))%nat with true
    by (symmetry; apply Nat.ltb_lt; lia).
  destruct fuel as [|fuel]; cbn [scroll_while];
    replace (S (source_len st) <? source_len (pass pause sleep st))%nat
      with false by (symmetry; apply Nat.ltb_ge; lia);
    reflexivity.
Qed.

Lemma scroll_while_terminates (bound fuel : nat) (sleep : Z)
    (source_length new_length : nat) (st : state) :
  (forall d, String.length (page_source d) <= bound)%nat ->
  (new_length <= S bound)%nat ->
  (S bound - source_length <= fuel)%nat ->
  exists st', scroll_while pause fuel sleep source_length new_length st
              = Some st'.
Proof.
  intros Hb. revert source_length new_length st.
  induction fuel as [|fuel IH]; intros src new st Hnew Hfuel.
  - simpl. destruct (Nat.ltb_spec src new) as [Hlt|_]; [lia|eauto].
  - cbn [scroll_while]. destruct (Nat.ltb_spec src new) as [Hlt|_]; [|eauto].
    apply IH.
    + unfold source_len. pose proof (Hb (browser (pass pause sleep st))). lia.
    + lia.
Qed.

(** X29.  When the source of the page never exceeds [bound] characters,
    every [while] loop of [crawl] ends within [bound + 1] passes, and so
    [crawl] ends for every number of pages. *)
Theorem crawl_terminates (bound fuel : nat) (n_pages sleep : Z) (st : state)
    (Hbound : forall d, (String.length (page_source d) <= bound)%nat)
    (Hfuel : (bound < fuel)%nat) :
  exists st', crawl pause fuel n_pages sleep st = Some st'.
Proof.
  unfold crawl. generalize (Z.to_nat n_pages). intros pages. revert st.
  induction pages as [|pages IH]; intros st; [simpl; eauto|].
  cbn [crawl_pages].
  destruct (scroll_while_terminates bound fuel sleep (source_len st)
              (S (source_len st)) st Hbound) as [st' Hst'].
  - unfold source_len. pose proof (Hbound (browser st)). lia.
  - lia.
  - rewrite Hst'. apply IH.
Qed.

End WithSelenium.

Section Samples.
Import MoreFixtures.

Lemma first_pass_needs_two_characters_witness :
  let idle := fun (_ : Z) (d : @driver small_selenium) => d in
  let st := @pass small_selenium idle 2 small_fresh in
  @scroll_while small_selenium idle 1 2 (source_len st) (S (source_len st)) st
  = Some (@pass small_selenium idle 2 st).
Proof.
  apply (@first_pass_needs_two_characters small_selenium
           (fun _ d => d) 0 2
           (@pass small_selenium (fun _ d => d) 2 small_fresh)).
  vm_compute. lia.
Defined.

Lemma crawl_terminates_witness :
  exists st',
    @crawl small_selenium (fun _ d => d) 3 20 2 small_fresh = Some st'.
Proof.
  apply (@crawl_terminates small_selenium (fun _ d => d) 2 3 20 2
           small_fresh).
  - intros [|]; simpl; lia.
  - lia.
Defined.

End Samples.

End LegacyCrawlFacts.
